(** * UniversalRadioWSN: a shallow embedding of the radio drivers

    The library normalises three radio transports (LoRa, NRF24L01, XBee over
    a serial stream) behind one C++ interface, [RadioInterface].  Each driver
    is a thin adapter over an external provider: the [LoRa] singleton, an
    [RF24] object, an Arduino [Stream] and the Arduino pin and clock
    functions.

    Driver code is embedded in a state-and-fault monad.  The providers are
    not part of the repository: the packet radios and the stream are kept
    abstract (one type class per provider, any implementation), the pins
    and the clock are a board with a millisecond clock and arbitrary input
    levels.  Every call a driver makes to a provider is appended to a call
    log, and the caller's byte buffer is an explicit list whose
    out-of-range accesses are faults. *)

From Stdlib Require Import ZArith List Bool Lia.
From stdpp Require Import base list.
Import ListNotations.

Open Scope Z_scope.

(** ** Machine integers *)

Definition wrap (bits x : Z) : Z := x mod 2 ^ bits.
Definition uint8 (x : Z) : Z := wrap 8 x.
Definition uint16 (x : Z) : Z := wrap 16 x.
Definition uint32 (x : Z) : Z := wrap 32 x.

(** [size_t] is 16 bits wide on AVR boards and 32 bits wide on ARM and ESP
    boards; the width is a parameter of the development. *)
Class Platform := { size_bits : Z }.

Definition size_t `{Platform} (x : Z) : Z := wrap size_bits x.

(** Arduino's [min] macro. *)
Definition min (a b : Z) : Z := if a <? b then a else b.

(** Arduino pin levels and modes. *)
Definition LOW : Z := 0.
Definition HIGH : Z := 1.
Definition INPUT : Z := 0.
Definition OUTPUT : Z := 1.

(** ** The monad of driver code *)

Inductive fault : Type :=
| OutOfBounds   (* an access outside the buffer it was given *)
| OutOfFuel.    (* a loop that did not finish within its iteration budget *)

Inductive outcome (A : Type) : Type :=
| Done (a : A)
| Fault (f : fault).
Arguments Done {A} a.
Arguments Fault {A} f.

Definition M (St A : Type) : Type := St -> outcome (A * St).

Definition ret {St A} (a : A) : M St A := fun s => Done (a, s).

Definition bind {St A B} (m : M St A) (k : A -> M St B) : M St B :=
  fun s => match m s with
           | Done (a, s') => k a s'
           | Fault f => Fault f
           end.

Definition raise {St A} (f : fault) : M St A := fun _ => Fault f.

#[global] Instance M_ret {St} : MRet (M St) := @ret St.
#[global] Instance M_bind {St} : MBind (M St) :=
  fun A B k m => bind m k.

(** A provider's runtime state together with the log of the calls made to
    it, oldest first. *)
Record world (P E : Type) : Type := World { hw : P; calls : list E }.
Arguments World {P E} hw calls.
Arguments hw {P E} w.
Arguments calls {P E} w.

(** [call op ev] runs the provider primitive [op] and logs the event [ev],
    which records the arguments and the answer. *)
Definition call {P E A} (op : P -> A * P) (ev : A -> E) : M (world P E) A :=
  fun w => let r := op (hw w) in
           Done (r.1, World r.2 (calls w ++ [ev r.1])).

(** ** Caller buffers

    A [uint8_t*] argument is the list of the bytes it points to; its length
    is the capacity of the memory behind the pointer. *)

Definition in_bounds (buffer : list Z) (i : Z) : bool :=
  (0 <=? i) && (i <? Z.of_nat (length buffer)).

(** [buffer[i] = v]. *)
Definition store {St} (buffer : list Z) (i v : Z) : M St (list Z) :=
  if in_bounds buffer i then ret (<[Z.to_nat i := v]> buffer)
  else raise OutOfBounds.

(** A provider filling the buffer from its first cell with [data]. *)
Definition fill {St} (buffer data : list Z) : M St (list Z) :=
  if (length data <=? length buffer)%nat
  then ret (data ++ drop (length data) buffer)
  else raise OutOfBounds.

(** The bytes of a C string: everything before the first NUL.  Reading a
    buffer that holds no NUL runs off its end. *)
Fixpoint c_str (buffer : list Z) : option (list Z) :=
  match buffer with
  | [] => None
  | b :: rest => if b =? 0 then Some []
                 else match c_str rest with
                      | Some s => Some (b :: s)
                      | None => None
                      end
  end.

(** ** RadioInterface.h *)

Module RadioInterface.

(** The abstract base class: [Obj] is the driver object, [St] the state
    its methods run in.  A read returns the byte count and the buffer. *)
Class t (Obj St : Type) : Type := {
  iniciar : Obj -> M St bool;
  enviar : Obj -> list Z -> Z -> M St bool;
  hayDatosDisponibles : Obj -> M St Z;
  leer : Obj -> list Z -> Z -> M St (Z * list Z);
  obtenerRSSI : Obj -> M St Z;
  dormir : Obj -> M St bool;
  despertar : Obj -> M St bool
}.

(** Default bodies of the optional virtual methods. *)
Definition obtenerRSSI_default {Obj St} (_ : Obj) : M St Z := ret 0.
Definition dormir_default {Obj St} (_ : Obj) : M St bool := ret true.
Definition despertar_default {Obj St} (_ : Obj) : M St bool := ret true.


(** [leerComoString]: the 256-byte array lives on the stack and starts
    with whatever the stack held, [junk i] in cell [i]. *)
Definition leerComoString {Obj St} `{t Obj St} (self : Obj) (junk : nat -> Z)
  : M St (list Z) :=
  let buffer := map junk (seq 0 256) in
  '(longitud, buffer) ← leer self buffer 255;
  buffer ← store buffer longitud 0;
  match c_str buffer with
  | Some s => ret s
  | None => raise OutOfBounds
  end.

End RadioInterface.

(** ** LoraRadio.h *)

(** The primitives of the external [LoRa] object that the driver uses, over
    an arbitrary runtime state [L].  [int] and [long] answers are taken as
    unbounded integers. *)
Class LoRaClass (L : Type) : Type := {
  LoRa_setPins : Z -> Z -> Z -> L -> unit * L;
  LoRa_begin : Z -> L -> Z * L;
  LoRa_setTxPower : Z -> L -> unit * L;
  LoRa_setSpreadingFactor : Z -> L -> unit * L;
  LoRa_setSignalBandwidth : Z -> L -> unit * L;
  LoRa_setCodingRate4 : Z -> L -> unit * L;
  LoRa_setSyncWord : Z -> L -> unit * L;
  LoRa_beginPacket : L -> Z * L;
  LoRa_write : list Z -> Z -> L -> Z * L;
  LoRa_endPacket : L -> Z * L;
  LoRa_parsePacket : L -> Z * L;
  LoRa_available : L -> Z * L;
  LoRa_read : L -> Z * L;
  LoRa_packetRssi : L -> Z * L;
  LoRa_sleep : L -> unit * L;
  LoRa_idle : L -> unit * L
}.

Inductive lora_call : Type :=
| LSetPins (cs rst irq : Z)
| LBegin (frequency : Z) (answer : Z)
| LSetTxPower (level : Z)
| LSetSpreadingFactor (sf : Z)
| LSetSignalBandwidth (bw : Z)
| LSetCodingRate4 (denominator : Z)
| LSetSyncWord (sw : Z)
| LBeginPacket (answer : Z)
| LWrite (buffer : list Z) (size : Z) (answer : Z)
| LEndPacket (answer : Z)
| LParsePacket (answer : Z)
| LAvailable (answer : Z)
| LRead (answer : Z)
| LPacketRssi (answer : Z)
| LSleep
| LIdle.

Record LoRaConfig : Type := {
  frequency : Z;
  txPower : Z;
  spreadingFactor : Z;
  signalBandwidth : Z;
  codingRate : Z;
  syncWord : Z;
  csPin : Z;
  resetPin : Z;
  irqPin : Z
}.

Module LoraRadio.
Section Driver.
Context `{Platform} {L : Type} `{LoRaClass L}.

Record t : Type := { _config : LoRaConfig }.

Abbreviation St := (world L lora_call).

Definition iniciar (self : t) : M St bool :=
  let c := _config self in
  call (LoRa_setPins (csPin c) (resetPin c) (irqPin c))
       (fun _ => LSetPins (csPin c) (resetPin c) (irqPin c));;
  ok ← call (LoRa_begin (frequency c)) (LBegin (frequency c));
  if ok =? 0 then mret false
  else
    call (LoRa_setTxPower (txPower c)) (fun _ => LSetTxPower (txPower c));;
    call (LoRa_setSpreadingFactor (spreadingFactor c))
         (fun _ => LSetSpreadingFactor (spreadingFactor c));;
    call (LoRa_setSignalBandwidth (signalBandwidth c))
         (fun _ => LSetSignalBandwidth (signalBandwidth c));;
    call (LoRa_setCodingRate4 (codingRate c))
         (fun _ => LSetCodingRate4 (codingRate c));;
    call (LoRa_setSyncWord (syncWord c)) (fun _ => LSetSyncWord (syncWord c));;
    mret true.

Definition enviar (self : t) (buffer : list Z) (longitud : Z) : M St bool :=
  ready ← call LoRa_beginPacket LBeginPacket;
  if ready =? 0 then mret false
  else
    call (LoRa_write buffer longitud) (LWrite buffer longitud);;
    call LoRa_endPacket LEndPacket;;
    mret true.

Definition hayDatosDisponibles (self : t) : M St Z :=
  call LoRa_parsePacket LParsePacket.

(** The [while] loop of [leer]; [fuel] bounds the number of times the
    loop condition is evaluated. *)
Fixpoint leer_loop (fuel : nat) (buffer : list Z) (maxLongitud bytesLeidos : Z)
  : M St (Z * list Z) :=
  match fuel with
  | O => raise OutOfFuel
  | S fuel' =>
      pending ← call LoRa_available LAvailable;
      if negb (pending =? 0) && (bytesLeidos <? maxLongitud) then
        byte ← call LoRa_read LRead;
        buffer ← store buffer bytesLeidos (uint8 byte);
        leer_loop fuel' buffer maxLongitud (size_t (bytesLeidos + 1))
      else mret (bytesLeidos, buffer)
  end.

(** The condition is evaluated at most [maxLongitud + 1] times. *)
Definition leer (self : t) (buffer : list Z) (maxLongitud : Z)
  : M St (Z * list Z) :=
  leer_loop (S (Z.to_nat maxLongitud)) buffer maxLongitud 0.

Definition obtenerRSSI (self : t) : M St Z :=
  call LoRa_packetRssi LPacketRssi.

Definition dormir (self : t) : M St bool :=
  call LoRa_sleep (fun _ => LSleep);; mret true.

Definition despertar (self : t) : M St bool :=
  call LoRa_idle (fun _ => LIdle);; mret true.

#[export] Instance radio : RadioInterface.t t St := {
  RadioInterface.iniciar := iniciar;
  RadioInterface.enviar := enviar;
  RadioInterface.hayDatosDisponibles := hayDatosDisponibles;
  RadioInterface.leer := leer;
  RadioInterface.obtenerRSSI := obtenerRSSI;
  RadioInterface.dormir := dormir;
  RadioInterface.despertar := despertar
}.

End Driver.
End LoraRadio.

(** ** NrfRadio.h *)

(** The data-rate enumeration of the RF24 library. *)
Inductive rf24_datarate_e : Type := RF24_1MBPS | RF24_2MBPS | RF24_250KBPS.

(** The primitives of the external [RF24] object that the driver uses.
    [RF24_read len] answers with the bytes the library stores through the
    buffer pointer; [RF24_elapse ms] is what [ms] milliseconds of Arduino
    [delay] do to the radio. *)
Class RF24 (R : Type) : Type := {
  RF24_begin : R -> bool * R;
  RF24_setChannel : Z -> R -> unit * R;
  RF24_setDataRate : rf24_datarate_e -> R -> bool * R;
  RF24_setPALevel : Z -> R -> unit * R;
  RF24_enableDynamicPayloads : R -> unit * R;
  RF24_openWritingPipe : list Z -> R -> unit * R;
  RF24_openReadingPipe : Z -> list Z -> R -> unit * R;
  RF24_startListening : R -> unit * R;
  RF24_stopListening : R -> unit * R;
  RF24_write : list Z -> Z -> R -> bool * R;
  RF24_available : R -> bool * R;
  RF24_getDynamicPayloadSize : R -> Z * R;
  RF24_read : Z -> R -> list Z * R;
  RF24_powerDown : R -> unit * R;
  RF24_powerUp : R -> unit * R;
  RF24_elapse : Z -> R -> unit * R
}.

Inductive rf24_call : Type :=
| RBegin (answer : bool)
| RSetChannel (channel : Z)
| RSetDataRate (speed : rf24_datarate_e) (answer : bool)
| RSetPALevel (level : Z)
| REnableDynamicPayloads
| ROpenWritingPipe (address : list Z)
| ROpenReadingPipe (child : Z) (address : list Z)
| RStartListening
| RStopListening
| RWrite (buffer : list Z) (len : Z) (answer : bool)
| RAvailable (answer : bool)
| RGetDynamicPayloadSize (answer : Z)
| RRead (len : Z) (stored : list Z)
| RPowerDown
| RPowerUp
| RDelay (ms : Z).

Record NrfConfig : Type := {
  cePin : Z;               (* uint8_t *)
  csnPin : Z;              (* uint8_t *)
  writeAddress : list Z;   (* const byte* *)
  readAddress : list Z;    (* const byte* *)
  channel : Z;             (* uint8_t *)
  dataRate : Z;            (* uint16_t *)
  paLevel : Z              (* int8_t *)
}.




Module NrfRadio.
Section Driver.
Context `{Platform} {R : Type} `{RF24 R}.

(** The [RF24] member [_radio] is the provider state of the world. *)
Record t : Type := { _config : NrfConfig }.

Abbreviation St := (world R rf24_call).

Definition iniciar (self : t) : M St bool :=
  let c := _config self in
  ok ← call RF24_begin RBegin;
  if negb ok then mret false
  else
    call (RF24_setChannel (channel c)) (fun _ => RSetChannel (channel c));;
    ((if dataRate c =? 250 then
        call (RF24_setDataRate RF24_250KBPS) (RSetDataRate RF24_250KBPS)
      else if dataRate c =? 2 then
        call (RF24_setDataRate RF24_2MBPS) (RSetDataRate RF24_2MBPS)
      else
        call (RF24_setDataRate RF24_1MBPS) (RSetDataRate RF24_1MBPS))
     : M St bool);;
    (* (rf24_pa_dbm_e)_config.paLevel: the cast keeps the number, and
       RF24::setPALevel takes it as a uint8_t *)
    call (RF24_setPALevel (uint8 (paLevel c)))
         (fun _ => RSetPALevel (uint8 (paLevel c)));;
    call RF24_enableDynamicPayloads (fun _ => REnableDynamicPayloads);;
    call (RF24_openWritingPipe (writeAddress c))
         (fun _ => ROpenWritingPipe (writeAddress c));;
    call (RF24_openReadingPipe 1 (readAddress c))
         (fun _ => ROpenReadingPipe 1 (readAddress c));;
    call RF24_startListening (fun _ => RStartListening);;
    mret true.

(** [RF24::write] takes a [uint8_t] length. *)
Definition enviar (self : t) (buffer : list Z) (longitud : Z) : M St bool :=
  call RF24_stopListening (fun _ => RStopListening);;
  ok ← call (RF24_write buffer (uint8 longitud)) (RWrite buffer (uint8 longitud));
  call RF24_startListening (fun _ => RStartListening);;
  mret ok.

Definition hayDatosDisponibles (self : t) : M St Z :=
  ready ← call RF24_available RAvailable;
  if (ready : bool) then
    size ← call RF24_getDynamicPayloadSize RGetDynamicPayloadSize;
    mret (uint8 size)
  else mret 0.

(** [getDynamicPayloadSize] answers a [uint8_t], widened to [size_t];
    [RF24::read] takes a [uint8_t] length. *)
Definition leer (self : t) (buffer : list Z) (maxLongitud : Z)
  : M St (Z * list Z) :=
  size ← call RF24_getDynamicPayloadSize RGetDynamicPayloadSize;
  let payloadSize := size_t (uint8 size) in
  if payloadSize =? 0 then mret (0, buffer)
  else
    let bytesALeer := min payloadSize maxLongitud in
    data ← call (RF24_read (uint8 bytesALeer)) (RRead (uint8 bytesALeer));
    buffer ← fill buffer data;
    mret (bytesALeer, buffer).

Definition dormir (self : t) : M St bool :=
  call RF24_powerDown (fun _ => RPowerDown);; mret true.

Definition despertar (self : t) : M St bool :=
  call RF24_powerUp (fun _ => RPowerUp);;
  call (RF24_elapse 5) (fun _ => RDelay 5);;
  mret true.

#[export] Instance radio : RadioInterface.t t St := {
  RadioInterface.iniciar := iniciar;
  RadioInterface.enviar := enviar;
  RadioInterface.hayDatosDisponibles := hayDatosDisponibles;
  RadioInterface.leer := leer;
  RadioInterface.obtenerRSSI := RadioInterface.obtenerRSSI_default;
  RadioInterface.dormir := dormir;
  RadioInterface.despertar := despertar
}.

End Driver.
End NrfRadio.

(** ** XbeeRadio.h *)

(** The primitives of the Arduino [Stream] the driver is given.
    [Stream_readBytes n] answers with the bytes stored through the buffer
    pointer; their number is the value [readBytes] returns. *)
Class Stream (S : Type) : Type := {
  Stream_available : S -> Z * S;
  Stream_write : list Z -> Z -> S -> Z * S;
  Stream_flush : S -> unit * S;
  Stream_readBytes : Z -> S -> list Z * S
}.

(** The Arduino clock and pins: a millisecond clock and, for every instant
    and pin, the level an input pin reads.  [delay] is the only primitive
    that takes time, and it takes exactly the time asked for. *)
Record board : Type := Board { clock : Z; signal : Z -> Z -> Z }.

Definition millis (b : board) : Z * board := (uint32 (clock b), b).
Definition delay (ms : Z) (b : board) : unit * board :=
  (tt, Board (clock b + ms) (signal b)).
Definition digitalRead (pin : Z) (b : board) : Z * board :=
  (signal b (clock b) pin, b).
Definition digitalWrite (pin val : Z) (b : board) : unit * board := (tt, b).
Definition pinMode (pin mode : Z) (b : board) : unit * board := (tt, b).

Record xbee_hw (S : Type) : Type := XBeeHw { serial : S; pins : board }.
Arguments XBeeHw {S} serial pins.
Arguments serial {S} x.
Arguments pins {S} x.

Definition on_serial {S A} (op : S -> A * S) (h : xbee_hw S) : A * xbee_hw S :=
  let r := op (serial h) in (r.1, XBeeHw r.2 (pins h)).

Definition on_board {S A} (op : board -> A * board) (h : xbee_hw S)
  : A * xbee_hw S :=
  let r := op (pins h) in (r.1, XBeeHw (serial h) r.2).

Inductive xbee_call : Type :=
| XPinMode (pin mode : Z)
| XDigitalWrite (pin val : Z)
| XDigitalRead (pin : Z) (answer : Z)
| XMillis (answer : Z)
| XDelay (ms : Z)
| XAvailable (answer : Z)
| XWrite (buffer : list Z) (size : Z) (answer : Z)
| XFlush
| XReadBytes (len : Z) (stored : list Z).

(** The pin writes among the logged calls, in order. *)
Definition pin_writes (log : list xbee_call) : list (Z * Z) :=
  omap (fun c => match c with XDigitalWrite p v => Some (p, v) | _ => None end)
       log.

Module XBeeRadio.
Section Driver.
Context `{Platform} {S : Type} `{Stream S}.

(** The [Stream&] member [_puertoSerial] is the [serial] of the world. *)
Record t : Type := {
  _baudios : Z;      (* long *)
  _pinSleepRq : Z;   (* int8_t *)
  _pinOnSleep : Z    (* int8_t *)
}.

Abbreviation St := (world (xbee_hw S) xbee_call).

(** The [while] loop of [_esperarEstadoPin]; [fuel] bounds the number of
    times the loop condition is evaluated. *)
Fixpoint esperar_loop (fuel : nat) (pin estadoDeseado timeout_ms tiempoInicio : Z)
  : M St bool :=
  match fuel with
  | O => raise OutOfFuel
  | Datatypes.S fuel' =>
      now ← call (on_board millis) XMillis;
      if uint32 (now - tiempoInicio) <? timeout_ms then
        level ← call (on_board (digitalRead pin)) (XDigitalRead pin);
        if level =? estadoDeseado then mret true
        else
          call (on_board (delay 1)) (fun _ => XDelay 1);;
          esperar_loop fuel' pin estadoDeseado timeout_ms tiempoInicio
      else mret false
  end.

(** The parameters are [uint8_t], [uint8_t] and [uint16_t].  With a clock
    that advances by one per [delay(1)] the condition is evaluated at most
    [timeout_ms + 1] times. *)
Definition _esperarEstadoPin (pin estadoDeseado timeout_ms : Z) : M St bool :=
  let pin := uint8 pin in
  let estadoDeseado := uint8 estadoDeseado in
  let timeout_ms := uint16 timeout_ms in
  tiempoInicio ← call (on_board millis) XMillis;
  esperar_loop (Datatypes.S (Z.to_nat timeout_ms))
               pin estadoDeseado timeout_ms tiempoInicio.

Definition dormir (self : t) : M St bool :=
  if _pinSleepRq self <? 0 then mret true
  else
    call (on_board (digitalWrite (uint8 (_pinSleepRq self)) LOW))
         (fun _ => XDigitalWrite (uint8 (_pinSleepRq self)) LOW);;
    if _pinOnSleep self <? 0 then mret true
    else _esperarEstadoPin (_pinOnSleep self) LOW 200.

Definition despertar (self : t) : M St bool :=
  if _pinSleepRq self <? 0 then mret true
  else
    call (on_board (digitalWrite (uint8 (_pinSleepRq self)) HIGH))
         (fun _ => XDigitalWrite (uint8 (_pinSleepRq self)) HIGH);;
    if _pinOnSleep self <? 0 then mret true
    else _esperarEstadoPin (_pinOnSleep self) HIGH 200.

Definition iniciar (self : t) : M St bool :=
  (if _pinSleepRq self >=? 0 then
     call (on_board (pinMode (uint8 (_pinSleepRq self)) OUTPUT))
          (fun _ => XPinMode (uint8 (_pinSleepRq self)) OUTPUT)
   else mret tt);;
  (if _pinOnSleep self >=? 0 then
     call (on_board (pinMode (uint8 (_pinOnSleep self)) INPUT))
          (fun _ => XPinMode (uint8 (_pinOnSleep self)) INPUT)
   else mret tt);;
  despertar self;;
  mret true.

Definition enviar (self : t) (buffer : list Z) (longitud : Z) : M St bool :=
  bytesEscritos ← call (on_serial (Stream_write buffer longitud))
                       (XWrite buffer longitud);
  call (on_serial Stream_flush) (fun _ => XFlush);;
  mret (bytesEscritos =? longitud).

Definition hayDatosDisponibles (self : t) : M St Z :=
  call (on_serial Stream_available) XAvailable.

Definition leer (self : t) (buffer : list Z) (maxLongitud : Z)
  : M St (Z * list Z) :=
  if maxLongitud =? 0 then mret (0, buffer)
  else
    bytesDisponibles ← call (on_serial Stream_available) XAvailable;
    if bytesDisponibles >? 0 then
      let bytesALeer := min (size_t bytesDisponibles) maxLongitud in
      data ← call (on_serial (Stream_readBytes bytesALeer))
                  (XReadBytes bytesALeer);
      buffer ← fill buffer data;
      mret (Z.of_nat (length data), buffer)
    else mret (0, buffer).

#[export] Instance radio : RadioInterface.t t St := {
  RadioInterface.iniciar := iniciar;
  RadioInterface.enviar := enviar;
  RadioInterface.hayDatosDisponibles := hayDatosDisponibles;
  RadioInterface.leer := leer;
  RadioInterface.obtenerRSSI := RadioInterface.obtenerRSSI_default;
  RadioInterface.dormir := dormir;
  RadioInterface.despertar := despertar
}.

End Driver.
End XBeeRadio.

(** ** Reference providers

    Small executable stand-ins for the external libraries, following their
    documented behaviour.  They make the drivers runnable on concrete
    inputs. *)

Module Sim.

(** An 8-bit AVR board: [size_t] is 16 bits wide. *)
Definition avr : Platform := {| size_bits := 16 |}.

(** The packet side of the LoRa library: [parsePacket] reports a packet the
    modem has finished receiving and makes it the current one, [available]
    counts the bytes of the current packet not read yet, [read] takes the
    next of them. *)
Record lora : Type := LoRaSim {
  lora_found : bool;              (* the chip answers on the SPI bus *)
  lora_busy : bool;               (* a transmission is under way *)
  lora_arrived : option (list Z); (* received, not yet reported *)
  lora_unread : list Z;           (* current packet, bytes not yet read *)
  lora_rssi : Z
}.

Definition lora_parsePacket (l : lora) : Z * lora :=
  match lora_arrived l with
  | Some p => (Z.of_nat (length p),
               LoRaSim (lora_found l) (lora_busy l) None p (lora_rssi l))
  | None => (0, l)
  end.

Definition lora_read (l : lora) : Z * lora :=
  match lora_unread l with
  | [] => (-1, l)
  | b :: rest =>
      (b, LoRaSim (lora_found l) (lora_busy l) (lora_arrived l) rest (lora_rssi l))
  end.

#[global] Instance lora_provider : LoRaClass lora := {
  LoRa_setPins := fun _ _ _ l => (tt, l);
  LoRa_begin := fun _ l => (if lora_found l then 1 else 0, l);
  LoRa_setTxPower := fun _ l => (tt, l);
  LoRa_setSpreadingFactor := fun _ l => (tt, l);
  LoRa_setSignalBandwidth := fun _ l => (tt, l);
  LoRa_setCodingRate4 := fun _ l => (tt, l);
  LoRa_setSyncWord := fun _ l => (tt, l);
  LoRa_beginPacket := fun l => (if lora_busy l then 0 else 1, l);
  LoRa_write := fun _ size l => (size, l);
  LoRa_endPacket := fun l => (1, l);
  LoRa_parsePacket := lora_parsePacket;
  LoRa_available := fun l => (Z.of_nat (length (lora_unread l)), l);
  LoRa_read := lora_read;
  LoRa_packetRssi := fun l => (lora_rssi l, l);
  LoRa_sleep := fun l => (tt, l);
  LoRa_idle := fun l => (tt, l)
}.

(** The RF24 library: a queue of received payloads, of which [read] takes
    the first; [write] succeeds when the peer acknowledges. *)
Record rf24 : Type := RF24Sim {
  rf24_found : bool;
  rf24_peer_acks : bool;
  rf24_rx : list (list Z)
}.

Definition rf24_payload_size (r : rf24) : Z :=
  match rf24_rx r with
  | [] => 0
  | p :: _ => Z.of_nat (length p)
  end.

Definition rf24_read (len : Z) (r : rf24) : list Z * rf24 :=
  match rf24_rx r with
  | [] => ([], r)
  | p :: rest =>
      (take (Z.to_nat len) p, RF24Sim (rf24_found r) (rf24_peer_acks r) rest)
  end.

#[global] Instance rf24_provider : RF24 rf24 := {
  RF24_begin := fun r => (rf24_found r, r);
  RF24_setChannel := fun _ r => (tt, r);
  RF24_setDataRate := fun _ r => (true, r);
  RF24_setPALevel := fun _ r => (tt, r);
  RF24_enableDynamicPayloads := fun r => (tt, r);
  RF24_openWritingPipe := fun _ r => (tt, r);
  RF24_openReadingPipe := fun _ _ r => (tt, r);
  RF24_startListening := fun r => (tt, r);
  RF24_stopListening := fun r => (tt, r);
  RF24_write := fun _ _ r => (rf24_peer_acks r, r);
  RF24_available := fun r => (match rf24_rx r with [] => false | _ => true end, r);
  RF24_getDynamicPayloadSize := fun r => (rf24_payload_size r, r);
  RF24_read := rf24_read;
  RF24_powerDown := fun r => (tt, r);
  RF24_powerUp := fun r => (tt, r);
  RF24_elapse := fun _ r => (tt, r)
}.

(** A serial port: a receive queue and a transmit buffer with [uart_room]
    free bytes; [write] accepts what fits. *)
Record uart : Type := Uart { uart_rx : list Z; uart_tx : list Z; uart_room : Z }.

Definition uart_write (buffer : list Z) (size : Z) (u : uart) : Z * uart :=
  let n := min size (uart_room u) in
  (n, Uart (uart_rx u) (uart_tx u ++ take (Z.to_nat n) buffer) (uart_room u - n)).

Definition uart_readBytes (n : Z) (u : uart) : list Z * uart :=
  (take (Z.to_nat n) (uart_rx u),
   Uart (drop (Z.to_nat n) (uart_rx u)) (uart_tx u) (uart_room u)).

#[global] Instance uart_provider : Stream uart := {
  Stream_available := fun u => (Z.of_nat (length (uart_rx u)), u);
  Stream_write := uart_write;
  Stream_flush := fun u => (tt, Uart (uart_rx u) [] (uart_room u + Z.of_nat (length (uart_tx u))));
  Stream_readBytes := uart_readBytes
}.

(** An XBee whose ON/SLEEP pin [pin] follows a request after [lag]
    milliseconds, counted from instant [since]; other pins read [LOW]. *)
Definition follows (pin since lag level : Z) : Z -> Z -> Z :=
  fun time p =>
    if p =? pin then (if since + lag <=? time then level else 1 - level)
    else LOW.

(** A confirmation pin that stays at [level] for ever. *)
Definition stuck (level : Z) : Z -> Z -> Z := fun _ _ => level.

End Sim.

(** * Specification vocabulary *)



(** Scenario A's addresses and channel, with the power selector 7. *)
Definition nrf_config_pa7 : NrfConfig :=
  {| cePin := 9; csnPin := 10;
     writeAddress := [84; 88; 48; 48; 49]; readAddress := [82; 88; 48; 48; 49];
     channel := 76; dataRate := 1; paLevel := 7 |}.

(** The confirmation pin reads [level] at one of the 200 instants, a
    millisecond apart, that start when the wait starts. *)
Definition confirmed (b : board) (pin level : Z) : Prop :=
  exists k, 0 <= k < 200 /\ signal b (clock b + k) pin = level.

(** The three pin configurations of a power request [op] that drives the
    request pin [rq] to [level] and expects the confirmation pin [on] to
    read [level]. *)
Definition pin_gated {S} (op : M (world (xbee_hw S) xbee_call) bool)
           (rq on level : Z) (w : world (xbee_hw S) xbee_call) : Prop :=
  (rq < 0 -> op w = Done (true, w))
  /\ (0 <= rq -> on < 0 ->
      exists w',
        op w = Done (true, w')
        /\ hw w' = hw w
        /\ calls w' = calls w ++ [XDigitalWrite (uint8 rq) level])
  /\ (0 <= rq -> 0 <= on ->
      exists b w',
        op w = Done (b, w')
        /\ pin_writes (calls w') = pin_writes (calls w) ++ [(uint8 rq, level)]
        /\ (b = true <-> confirmed (pins (hw w)) (uint8 on) level)
        /\ (b = false <-> ~ confirmed (pins (hw w)) (uint8 on) level)).

(** The [pinMode] calls of [iniciar]. *)
Definition pin_modes (self : XBeeRadio.t) : list xbee_call :=
  (if XBeeRadio._pinSleepRq self >=? 0
   then [XPinMode (uint8 (XBeeRadio._pinSleepRq self)) OUTPUT] else [])
  ++ (if XBeeRadio._pinOnSleep self >=? 0
      then [XPinMode (uint8 (XBeeRadio._pinOnSleep self)) INPUT] else []).

(** What a finished wait leaves behind: the verdict [b], and a world that
    differs from the one the wait started in only by the clock and by
    logged clock and pin reads. *)
Record waited {S} (start : Z) (sig : Z -> Z -> Z) (pin level timeout : Z)
       (w : world (xbee_hw S) xbee_call) (b : bool)
       (w' : world (xbee_hw S) xbee_call) : Prop := {
  waited_serial : serial (hw w') = serial (hw w);
  waited_signal : signal (pins (hw w')) = sig;
  waited_writes : pin_writes (calls w') = pin_writes (calls w);
  waited_verdict :
    b = true <-> exists k, 0 <= k < timeout /\ sig (start + k) pin = level;
  waited_timeout : b = false -> clock (pins (hw w')) = start + timeout;
  waited_in_time : b = true -> start <= clock (pins (hw w')) < start + timeout
}.

(** The number of bytes [leer] takes with capacity [maxLongitud] when [n]
    bytes are in the buffer already and [unread l] is left of the packet. *)
Definition taken {L} (unread : L -> list Z) (maxLongitud n : Z) (l : L) : nat :=
  Nat.min (length (unread l)) (Z.to_nat (maxLongitud - n)).

(** The truncation law on a world [w] whose current packet is [packet]:
    after [leer] has returned [r] bytes, a poll answers 0 and no later
    [leer] returns the bytes of the packet beyond the first [r]. *)
Definition truncated_tail_unrecoverable `{Platform} {L} `{LoRaClass L}
           (self : LoraRadio.t) (packet : list Z) (maxLongitud : Z)
           (w : world L lora_call) : Prop :=
  forall buffer r buffer' w1,
    maxLongitud <= Z.of_nat (length buffer) ->
    LoraRadio.leer self buffer maxLongitud w = Done ((r, buffer'), w1) ->
    (exists w2, LoraRadio.hayDatosDisponibles self w1 = Done (0, w2))
    /\ (forall buffer2 maxLongitud2 r2 buffer2' w2,
           LoraRadio.leer self buffer2 maxLongitud2 w1 = Done ((r2, buffer2'), w2) ->
           take (Z.to_nat r2) buffer2' <> drop (Z.to_nat r) packet).

(** A LoRa radio on the 868 MHz band. *)
Definition lora_868 : LoraRadio.t :=
  {| LoraRadio._config :=
       {| frequency := 868000000; txPower := 17; spreadingFactor := 7;
          signalBandwidth := 125000; codingRate := 5; syncWord := 18;
          csPin := 10; resetPin := 9; irqPin := 2 |} |}.

(** A 5-byte packet that [parsePacket] has just reported. *)
Definition five_bytes : list Z := [1; 2; 3; 4; 5].

(** The reference modem holding [packet] as its current packet, nothing
    read from it yet and no other packet received. *)
Definition lora_world (packet : list Z) : world Sim.lora lora_call :=
  World (Sim.LoRaSim true false None packet (-40)) [].

(** On the reference LoRa provider, a packet waits to be reported. *)
Definition sim_lora_arrived (l : Sim.lora) : bool :=
  match Sim.lora_arrived l with Some _ => true | None => false end.

(** An XBee on the reference board, request pin 4 and confirmation pin 5. *)
Definition xbee_both_pins : XBeeRadio.t :=
  {| XBeeRadio._baudios := 9600; XBeeRadio._pinSleepRq := 4;
     XBeeRadio._pinOnSleep := 5 |}.

(** The reference board at instant 1000 with input levels [sig]. *)
Definition xbee_world (sig : Z -> Z -> Z) : world (xbee_hw Sim.uart) xbee_call :=
  World (XBeeHw (Sim.Uart [] [] 64) (Board 1000 sig)) [].

(** A 300-byte payload of letters in the serial port's receive queue. *)
Definition long_payload : list Z := replicate 300 65.


(** The first of the 200 polling instants at which the confirmation pin
    reads [level] is the instant number [k]. *)
Definition first_confirmation (b : board) (pin level k : Z) : Prop :=
  0 <= k < 200
  /\ signal b (clock b + k) pin = level
  /\ forall j, 0 <= j < k -> signal b (clock b + j) pin <> level.

(** What a power request [op] toward [level] does to the world, request
    pin [rq] and confirmation pin [on]: the stream and the input levels are
    left alone, the only pin written is the request pin, and the call
    succeeds at once without a pin to poll; with one it succeeds exactly
    when the confirmation comes, after the time to the first confirmation,
    and fails after 200 ms when none comes. *)
Definition request_effects {S} (op : M (world (xbee_hw S) xbee_call) bool)
           (rq on level : Z) (w : world (xbee_hw S) xbee_call) : Prop :=
  exists b w',
    op w = Done (b, w')
    /\ serial (hw w') = serial (hw w)
    /\ signal (pins (hw w')) = signal (pins (hw w))
    /\ pin_writes (calls w')
       = pin_writes (calls w) ++ (if rq <? 0 then [] else [(uint8 rq, level)])
    /\ clock (pins (hw w)) <= clock (pins (hw w')) <= clock (pins (hw w)) + 200
    /\ (rq < 0 \/ on < 0 ->
        b = true /\ clock (pins (hw w')) = clock (pins (hw w)))
    /\ (0 <= rq -> 0 <= on ->
        (b = true <-> confirmed (pins (hw w)) (uint8 on) level)
        /\ (b = false <-> ~ confirmed (pins (hw w)) (uint8 on) level)
        /\ (b = false -> clock (pins (hw w')) = clock (pins (hw w)) + 200)
        /\ (forall k, first_confirmation (pins (hw w)) (uint8 on) level k ->
                     b = true /\ clock (pins (hw w')) = clock (pins (hw w)) + k)).

(** A board whose clock is 100 ms short of the 32-bit rollover of
    [millis]. *)
Definition xbee_world_near_rollover (sig : Z -> Z -> Z)
  : world (xbee_hw Sim.uart) xbee_call :=
  World (XBeeHw (Sim.Uart [] [] 64) (Board (2 ^ 32 - 100) sig)) [].

(** The reference serial port with [rx] received and room to send. *)
Definition uart_world (rx : list Z) : world (xbee_hw Sim.uart) xbee_call :=
  World (XBeeHw (Sim.Uart rx [] 64) (Board 0 (Sim.stuck LOW))) [].

(** The reference NRF radio with the payloads [rx] received. *)
Definition nrf_world (rx : list (list Z)) : world Sim.rf24 rf24_call :=
  World (Sim.RF24Sim true true rx) [].

(** The payload at the head of the reference radio's receive queue. *)
Definition sim_rf24_next (r : Sim.rf24) : list Z :=
  match Sim.rf24_rx r with [] => [] | p :: _ => p end.

(** The bytes of "Hi!" and a stack that held 170 in every cell. *)
Definition hi_bytes : list Z := [72; 105; 33].
Definition stack_junk : nat -> Z := fun _ => 170.

(** * Properties *)

(** ** Stepping through driver code *)

Lemma run_ret {St A} (a : A) (s : St) : (mret a : M St A) s = Done (a, s).
Proof. reflexivity. Qed.

Lemma run_bind {St A B} (m : M St A) (k : A -> M St B) (s : St) :
  (m ≫= k) s = match m s with Done (a, s') => k a s' | Fault f => Fault f end.
Proof. reflexivity. Qed.

Lemma run_bind_ret {St A B} (a : A) (k : A -> M St B) (s : St) :
  ((mret a : M St A) ≫= k) s = k a s.
Proof. reflexivity. Qed.

Lemma run_call {P E A} (op : P -> A * P) (ev : A -> E) (w : world P E) :
  call op ev w = Done ((op (hw w)).1, World (op (hw w)).2 (calls w ++ [ev (op (hw w)).1])).
Proof. reflexivity. Qed.

Lemma run_bind_call {P E A B} (op : P -> A * P) (ev : A -> E)
      (k : A -> M (world P E) B) (w : world P E) :
  (call op ev ≫= k) w
  = k (op (hw w)).1 (World (op (hw w)).2 (calls w ++ [ev (op (hw w)).1])).
Proof. rewrite run_bind, run_call. reflexivity. Qed.

Lemma run_store {St} (buffer : list Z) (i v : Z) (s : St) :
  0 <= i < Z.of_nat (length buffer) ->
  store buffer i v s = Done (<[Z.to_nat i := v]> buffer, s).
Proof.
  intros Hi. unfold store, in_bounds.
  replace (0 <=? i) with true by (symmetry; apply Z.leb_le; lia).
  replace (i <? Z.of_nat (length buffer)) with true
    by (symmetry; apply Z.ltb_lt; lia).
  reflexivity.
Qed.

Lemma run_fill {St} (buffer data : list Z) (s : St) :
  (length data <= length buffer)%nat ->
  fill buffer data s = Done (data ++ drop (length data) buffer, s).
Proof.
  intros Hle. unfold fill.
  replace (length data <=? length buffer)%nat with true
    by (symmetry; apply Nat.leb_le; exact Hle).
  reflexivity.
Qed.

Ltac step :=
  first [ rewrite run_bind_call
        | rewrite run_bind_ret
        | rewrite run_call
        | rewrite run_ret ];
  cbn [hw calls fst snd on_serial on_board serial pins].

(** ** Machine-integer facts *)

Lemma wrap_small (bits x : Z) : 0 <= x < 2 ^ bits -> wrap bits x = x.
Proof. intros Hx. unfold wrap. apply Z.mod_small. exact Hx. Qed.

Lemma wrap_range (bits x : Z) : 0 < 2 ^ bits -> 0 <= wrap bits x < 2 ^ bits.
Proof. intros Hpos. unfold wrap. apply Z.mod_pos_bound. exact Hpos. Qed.

Lemma wrap_le (bits x : Z) : 0 <= x -> 0 < 2 ^ bits -> wrap bits x <= x.
Proof. intros Hx Hpos. unfold wrap. apply Z.mod_le; lia. Qed.

Lemma uint8_range (x : Z) : 0 <= uint8 x < 256.
Proof. unfold uint8. change 256 with (2 ^ 8). apply wrap_range. lia. Qed.

Lemma min_cases (a b : Z) : (a < b /\ min a b = a) \/ (b <= a /\ min a b = b).
Proof. unfold min. destruct (Z.ltb_spec a b); [left | right]; lia. Qed.

(** ** The read bound *)

Section ReadBound.
Context `{Platform}.
Variable maxLongitud : Z.
Hypothesis size_t_value : 0 <= maxLongitud < 2 ^ size_bits.

Lemma lora_leer_loop_bound {L} `{LoRaClass L} (fuel : nat) :
  forall (buffer : list Z) (bytesLeidos : Z) (w : world L lora_call),
    0 <= bytesLeidos <= maxLongitud ->
    maxLongitud <= Z.of_nat (length buffer) ->
    maxLongitud - bytesLeidos < Z.of_nat fuel ->
    exists r buffer' w',
      LoraRadio.leer_loop fuel buffer maxLongitud bytesLeidos w
      = Done ((r, buffer'), w')
      /\ bytesLeidos <= r <= maxLongitud.
Proof.
  induction fuel as [|fuel IH]; intros buffer n w Hn Hcap Hfuel; [lia|].
  cbn [LoraRadio.leer_loop]. step.
  destruct (negb _ && (n <? maxLongitud)) eqn:Hcond.
  - apply andb_true_iff in Hcond as [_ Hlt]. apply Z.ltb_lt in Hlt.
    step. rewrite run_bind, run_store by lia.
    unfold size_t. rewrite wrap_small by lia.
    destruct (IH (<[Z.to_nat n := uint8 (LoRa_read (LoRa_available (hw w)).2).1]> buffer)
                 (n + 1)
                 (World (LoRa_read (LoRa_available (hw w)).2).2
                        ((calls w ++ [LAvailable (LoRa_available (hw w)).1])
                           ++ [LRead (LoRa_read (LoRa_available (hw w)).2).1])))
      as (r & b' & w' & Hrun & Hr); [lia | rewrite length_insert; lia | lia |].
    exists r, b', w'. split; [exact Hrun | lia].
  - step. exists n, buffer. eexists. split; [reflexivity | lia].
Qed.

Lemma lora_leer_bound {L} `{LoRaClass L} (self : LoraRadio.t)
      (buffer : list Z) (w : world L lora_call) :
  maxLongitud <= Z.of_nat (length buffer) ->
  exists r buffer' w',
    LoraRadio.leer self buffer maxLongitud w = Done ((r, buffer'), w')
    /\ 0 <= r <= maxLongitud.
Proof.
  intros Hcap. unfold LoraRadio.leer.
  apply lora_leer_loop_bound; lia.
Qed.

Lemma nrf_leer_bound {R} `{RF24 R} (self : NrfRadio.t)
      (buffer : list Z) (w : world R rf24_call) :
  (forall len r, 0 <= len -> Z.of_nat (length (RF24_read len r).1) <= len) ->
  maxLongitud <= Z.of_nat (length buffer) ->
  exists r buffer' w',
    NrfRadio.leer self buffer maxLongitud w = Done ((r, buffer'), w')
    /\ 0 <= r <= maxLongitud.
Proof.
  intros Hdrain Hcap. unfold NrfRadio.leer. step.
  set (size := (RF24_getDynamicPayloadSize (hw w)).1).
  assert (Hpos : 0 < 2 ^ size_bits) by lia.
  pose proof (uint8_range size) as Hu8.
  pose proof (wrap_range size_bits (uint8 size) Hpos) as Hps.
  pose proof (wrap_le size_bits (uint8 size) (proj1 Hu8) Hpos) as Hle.
  fold (size_t (uint8 size)) in Hps, Hle.
  destruct (size_t (uint8 size) =? 0) eqn:Hzero.
  - step. exists 0, buffer. eexists. split; [reflexivity | lia].
  - step. set (n := min (size_t (uint8 size)) maxLongitud).
    assert (Hn : 0 <= n <= maxLongitud /\ n < 256).
    { subst n. destruct (min_cases (size_t (uint8 size)) maxLongitud) as [[? ->]|[? ->]]; lia. }
    unfold uint8 at 1 2. rewrite (wrap_small 8 n) by (change (2 ^ 8) with 256; lia).
    match goal with |- context [RF24_read n ?r] =>
      pose proof (Hdrain n r (proj1 (proj1 Hn))) as Hd;
      set (res := RF24_read n r) in * end.
    rewrite run_bind, run_fill by lia. step.
    do 3 eexists. split; [reflexivity | lia].
Qed.

Lemma xbee_leer_bound {S} `{Stream S} (self : XBeeRadio.t)
      (buffer : list Z) (w : world (xbee_hw S) xbee_call) :
  (forall n s, 0 <= n -> Z.of_nat (length (Stream_readBytes n s).1) <= n) ->
  maxLongitud <= Z.of_nat (length buffer) ->
  exists r buffer' w',
    XBeeRadio.leer self buffer maxLongitud w = Done ((r, buffer'), w')
    /\ 0 <= r <= maxLongitud.
Proof.
  intros Hdrain Hcap. unfold XBeeRadio.leer.
  destruct (maxLongitud =? 0) eqn:Hzero.
  - step. exists 0, buffer, w. split; [reflexivity | lia].
  - step.
    destruct (Stream_available (serial (hw w))) as [avail s1].
    cbn [fst snd]. destruct (avail >? 0) eqn:Hgt.
    + step. set (n := min (size_t avail) maxLongitud).
      assert (Hn : 0 <= n <= maxLongitud).
      { assert (Hpos : 0 < 2 ^ size_bits) by lia.
        pose proof (wrap_range size_bits avail Hpos) as Hav.
        fold (size_t avail) in Hav. subst n.
        destruct (min_cases (size_t avail) maxLongitud) as [[? ->]|[? ->]]; lia. }
      pose proof (Hdrain n s1 (proj1 Hn)) as Hd.
      destruct (Stream_readBytes n s1) as [data s2]. cbn [fst snd] in *.
      rewrite run_bind, run_fill by lia. step.
      do 3 eexists. split; [reflexivity | lia].
    + step. exists 0, buffer. eexists. split; [reflexivity | lia].
Qed.

End ReadBound.

(** The reference providers store no more bytes than they are asked for. *)
Lemma sim_rf24_read_length (len : Z) (r : Sim.rf24) :
  0 <= len -> Z.of_nat (length (RF24_read len r).1) <= len.
Proof.
  intros Hlen. cbn. unfold Sim.rf24_read.
  destruct (Sim.rf24_rx r) as [|p rest]; cbn [fst length]; [lia|].
  rewrite length_take. lia.
Qed.

Lemma sim_uart_readBytes_length (n : Z) (u : Sim.uart) :
  0 <= n -> Z.of_nat (length (Stream_readBytes n u).1) <= n.
Proof. intros Hn. cbn. rewrite length_take. lia. Qed.

(** C1.  For each of the three drivers, whenever [maxLongitud] is a
    [size_t] value and the buffer has room for [maxLongitud] bytes, and the
    bulk-read primitives of the providers ([RF24::read], [Stream::readBytes])
    store no more bytes than the length they are given, [leer] returns, and
    the count [r] it returns satisfies [0 <= r <= maxLongitud]. *)
Theorem leer_returns_at_most_maxLongitud
        `{Platform} {L} `{LoRaClass L} {R} `{RF24 R} {S} `{Stream S}
        (maxLongitud : Z) (buffer : list Z) :
  0 <= maxLongitud < 2 ^ size_bits ->
  maxLongitud <= Z.of_nat (length buffer) ->
  (forall len r, 0 <= len -> Z.of_nat (length (RF24_read len r).1) <= len) ->
  (forall n s, 0 <= n -> Z.of_nat (length (Stream_readBytes n s).1) <= n) ->
  (forall (self : LoraRadio.t) (w : world L lora_call),
      exists r buffer' w',
        LoraRadio.leer self buffer maxLongitud w = Done ((r, buffer'), w')
        /\ 0 <= r <= maxLongitud)
  /\ (forall (self : NrfRadio.t) (w : world R rf24_call),
         exists r buffer' w',
           NrfRadio.leer self buffer maxLongitud w = Done ((r, buffer'), w')
           /\ 0 <= r <= maxLongitud)
  /\ (forall (self : XBeeRadio.t) (w : world (xbee_hw S) xbee_call),
         exists r buffer' w',
           XBeeRadio.leer self buffer maxLongitud w = Done ((r, buffer'), w')
           /\ 0 <= r <= maxLongitud).
Proof.
  intros Hmax Hcap Hrf24 Hstream. repeat split.
  - intros self w. now apply lora_leer_bound.
  - intros self w. now apply nrf_leer_bound.
  - intros self w. now apply xbee_leer_bound.
Qed.

Lemma leer_returns_at_most_maxLongitud_witness :
  (forall (self : LoraRadio.t) (w : world Sim.lora lora_call),
      exists r buffer' w',
        LoraRadio.leer (H := Sim.avr) self [0; 0; 0] 2 w = Done ((r, buffer'), w')
        /\ 0 <= r <= 2)
  /\ (forall (self : NrfRadio.t) (w : world Sim.rf24 rf24_call),
         exists r buffer' w',
           NrfRadio.leer (H := Sim.avr) self [0; 0; 0] 2 w = Done ((r, buffer'), w')
           /\ 0 <= r <= 2)
  /\ (forall (self : XBeeRadio.t) (w : world (xbee_hw Sim.uart) xbee_call),
         exists r buffer' w',
           XBeeRadio.leer (H := Sim.avr) self [0; 0; 0] 2 w = Done ((r, buffer'), w')
           /\ 0 <= r <= 2).
Proof.
  apply (leer_returns_at_most_maxLongitud (H := Sim.avr) 2 [0; 0; 0]).
  - vm_compute. split; [discriminate | reflexivity].
  - vm_compute. discriminate.
  - exact sim_rf24_read_length.
  - exact sim_uart_readBytes_length.
Defined.

(** ** The NRF24L01 driver *)



Section NrfIniciar.
Context {R : Type} `{RF24 R}.
Variables (self : NrfRadio.t) (w : world R rf24_call).



End NrfIniciar.






(** C10.  When the provider answers 0 to [getDynamicPayloadSize], [leer]
    returns 0 and the caller's buffer as it was, for every [maxLongitud];
    the size query is the only call it makes, so nothing is read from the
    radio. *)
Theorem nrf_leer_without_packet
        `{Platform} {R} `{RF24 R}
        (self : NrfRadio.t) (buffer : list Z) (maxLongitud : Z)
        (w : world R rf24_call) :
  (RF24_getDynamicPayloadSize (hw w)).1 = 0 ->
  NrfRadio.leer self buffer maxLongitud w
  = Done ((0, buffer),
          World (RF24_getDynamicPayloadSize (hw w)).2
                (calls w ++ [RGetDynamicPayloadSize 0])).
Proof.
  intros Hsize. unfold NrfRadio.leer. step. rewrite Hsize.
  replace (size_t (uint8 0)) with 0 by (unfold size_t, wrap; now rewrite Zmod_0_l).
  reflexivity.
Qed.

Lemma nrf_leer_without_packet_witness :
  NrfRadio.leer (H := Sim.avr) {| NrfRadio._config := nrf_config_pa7 |}
                [7; 7; 7] 3 (World (Sim.RF24Sim true true []) [])
  = Done ((0, [7; 7; 7]),
          World (Sim.RF24Sim true true []) ([] ++ [RGetDynamicPayloadSize 0])).
Proof.
  exact (nrf_leer_without_packet (H := Sim.avr)
           {| NrfRadio._config := nrf_config_pa7 |} [7; 7; 7] 3
           (World (Sim.RF24Sim true true []) []) eq_refl).
Defined.

(** ** The XBee driver *)


Lemma uint32_elapsed (start elapsed : Z) :
  0 <= elapsed < 2 ^ 32 ->
  uint32 (uint32 (start + elapsed) - uint32 start) = elapsed.
Proof.
  intros He. unfold uint32, wrap.
  rewrite Zminus_mod_idemp_l, Zminus_mod_idemp_r.
  replace (start + elapsed - start) with elapsed by lia.
  apply Z.mod_small. exact He.
Qed.

Lemma pin_writes_app (log1 log2 : list xbee_call) :
  pin_writes (log1 ++ log2) = pin_writes log1 ++ pin_writes log2.
Proof. apply omap_app. Qed.

Section Handshake.
Context {S : Type} `{Stream S}.

Lemma esperar_loop_spec (pin level timeout start : Z) (sig : Z -> Z -> Z) :
  0 <= timeout < 2 ^ 32 ->
  forall (fuel : nat) (elapsed : Z) (s : S) (log : list xbee_call),
    0 <= elapsed <= timeout ->
    timeout - elapsed < Z.of_nat fuel ->
    (forall k, 0 <= k < elapsed -> sig (start + k) pin <> level) ->
    exists b w',
      XBeeRadio.esperar_loop fuel pin level timeout (uint32 start)
        (World (XBeeHw s (Board (start + elapsed) sig)) log)
      = Done (b, w')
      /\ waited start sig pin level timeout
                (World (XBeeHw s (Board (start + elapsed) sig)) log) b w'.
Proof.
  intros Htimeout.
  induction fuel as [|fuel IH]; intros elapsed s log He Hfuel Hnot; [lia|].
  cbn [XBeeRadio.esperar_loop]. step. unfold millis at 1 2. cbn [fst snd clock].
  rewrite uint32_elapsed by lia.
  destruct (Z.ltb_spec elapsed timeout) as [Hlt|Hge].
  - step. unfold digitalRead at 1 2. cbn [fst snd clock signal].
    destruct (Z.eqb_spec (sig (start + elapsed) pin) level) as [Hlevel|Hlevel].
    + step. do 2 eexists. split; [reflexivity|].
      split; cbn [hw calls serial pins clock signal]; try reflexivity; try lia.
      * rewrite !pin_writes_app. cbn. rewrite !app_nil_r. reflexivity.
      * split; [intros _; exists elapsed; split; [lia | exact Hlevel] | reflexivity].
    + step. unfold delay. cbn [fst snd clock signal].
      replace (start + elapsed + 1) with (start + (elapsed + 1)) by lia.
      edestruct (IH (elapsed + 1) s) as (b & w' & Hrun & Hw); [lia | lia | |].
      { intros k Hk. destruct (Z.eq_dec k elapsed) as [->|Hne];
          [exact Hlevel | apply Hnot; lia]. }
      exists b, w'. split; [exact Hrun|].
      destruct Hw as [Hs Hsig Hwr Hv Ht Hi].
      split; cbn [hw calls serial pins clock signal] in *;
        try assumption.
      rewrite Hwr, !pin_writes_app. cbn. rewrite !app_nil_r. reflexivity.
  - step. assert (elapsed = timeout) as -> by lia.
    do 2 eexists. split; [reflexivity|].
    split; cbn [hw calls serial pins clock signal]; try reflexivity; try lia.
    + rewrite pin_writes_app. cbn. rewrite app_nil_r. reflexivity.
    + split; [discriminate|]. intros (k & Hk & Hlevel). exfalso.
      apply (Hnot k); [lia | exact Hlevel].
Qed.

Lemma esperarEstadoPin_spec (pin level timeout_ms : Z)
      (s : S) (start : Z) (sig : Z -> Z -> Z) (log : list xbee_call) :
  exists b w',
    XBeeRadio._esperarEstadoPin pin level timeout_ms
      (World (XBeeHw s (Board start sig)) log)
    = Done (b, w')
    /\ waited start sig (uint8 pin) (uint8 level) (uint16 timeout_ms)
              (World (XBeeHw s (Board start sig)) log) b w'.
Proof.
  unfold XBeeRadio._esperarEstadoPin. step. unfold millis at 1 2.
  cbn [fst snd clock].
  assert (Hrange : 0 <= uint16 timeout_ms < 2 ^ 16)
    by (apply wrap_range; lia).
  assert (Htimeout : 0 <= uint16 timeout_ms < 2 ^ 32) by lia.
  destruct (esperar_loop_spec (uint8 pin) (uint8 level) (uint16 timeout_ms)
              start sig Htimeout
              (Datatypes.S (Z.to_nat (uint16 timeout_ms))) 0 s
              (log ++ [XMillis (uint32 start)]))
    as (b & w' & Hrun & Hw); [lia | lia | intros k Hk; lia |].
  rewrite Z.add_0_r in Hrun, Hw.
  exists b, w'. split; [exact Hrun|].
  destruct Hw as [Hs Hsig Hwr Hv Ht Hi].
  split; cbn [hw calls serial pins clock signal] in *; try assumption.
  rewrite Hwr, pin_writes_app. cbn. rewrite app_nil_r. reflexivity.
Qed.

End Handshake.

Ltac pin_gated_cases self w :=
  destruct w as [[s [start sig]] log];
  destruct self as [baud rq on]; cbn [XBeeRadio._pinSleepRq XBeeRadio._pinOnSleep];
  repeat split.

Section PowerRequests.
Context {S : Type} `{Stream S}.
Variables (self : XBeeRadio.t) (w : world (xbee_hw S) xbee_call).

Lemma xbee_dormir_cases :
  pin_gated (XBeeRadio.dormir self)
            (XBeeRadio._pinSleepRq self) (XBeeRadio._pinOnSleep self) LOW w.
Proof.
  unfold pin_gated, XBeeRadio.dormir. pin_gated_cases self w.
  - intros Hrq. apply Z.ltb_lt in Hrq. rewrite Hrq. reflexivity.
  - intros Hrq Hon. apply Z.ltb_ge in Hrq. apply Z.ltb_lt in Hon.
    rewrite Hrq. step. rewrite Hon. step.
    eexists. repeat split.
  - intros Hrq Hon. apply Z.ltb_ge in Hrq, Hon. rewrite Hrq. step. rewrite Hon.
    unfold digitalWrite. cbn [fst snd].
    destruct (esperarEstadoPin_spec on LOW 200 s start sig
                (log ++ [XDigitalWrite (uint8 rq) LOW]))
      as (b & w' & Hrun & [_ _ Hwr Hv _ _]).
    exists b, w'. split; [exact Hrun|]. cbn [hw calls pins] in *.
    split; [rewrite Hwr; apply pin_writes_app|].
    unfold confirmed. cbn [clock signal].
    change (uint16 200) with 200 in Hv. change (uint8 LOW) with LOW in Hv.
    split; [exact Hv|]. rewrite <- Hv. destruct b; split; congruence.
Qed.

Lemma xbee_despertar_cases :
  pin_gated (XBeeRadio.despertar self)
            (XBeeRadio._pinSleepRq self) (XBeeRadio._pinOnSleep self) HIGH w.
Proof.
  unfold pin_gated, XBeeRadio.despertar. pin_gated_cases self w.
  - intros Hrq. apply Z.ltb_lt in Hrq. rewrite Hrq. reflexivity.
  - intros Hrq Hon. apply Z.ltb_ge in Hrq. apply Z.ltb_lt in Hon.
    rewrite Hrq. step. rewrite Hon. step.
    eexists. repeat split.
  - intros Hrq Hon. apply Z.ltb_ge in Hrq, Hon. rewrite Hrq. step. rewrite Hon.
    unfold digitalWrite. cbn [fst snd].
    destruct (esperarEstadoPin_spec on HIGH 200 s start sig
                (log ++ [XDigitalWrite (uint8 rq) HIGH]))
      as (b & w' & Hrun & [_ _ Hwr Hv _ _]).
    exists b, w'. split; [exact Hrun|]. cbn [hw calls pins] in *.
    split; [rewrite Hwr; apply pin_writes_app|].
    unfold confirmed. cbn [clock signal].
    change (uint16 200) with 200 in Hv. change (uint8 HIGH) with HIGH in Hv.
    split; [exact Hv|]. rewrite <- Hv. destruct b; split; congruence.
Qed.

Lemma xbee_despertar_returns :
  exists b w', XBeeRadio.despertar self w = Done (b, w').
Proof.
  destruct xbee_despertar_cases as (Hnone & Hrq & Hboth).
  destruct (Z.lt_ge_cases (XBeeRadio._pinSleepRq self) 0) as [Hlt|Hge].
  - exists true, w. now apply Hnone.
  - destruct (Z.lt_ge_cases (XBeeRadio._pinOnSleep self) 0) as [Hlt'|Hge'].
    + destruct (Hrq Hge Hlt') as (w' & Hrun & _). now exists true, w'.
    + destruct (Hboth Hge Hge') as (b & w' & Hrun & _). now exists b, w'.
Qed.

End PowerRequests.

(** C5.  [dormir] requests [LOW] and [despertar] requests [HIGH], and each
    obeys the three pin configurations.  With a negative sleep-request pin
    it returns [true] and leaves the world as it was: no call is made, no
    pin written.  With a sleep-request pin and a negative confirmation pin
    it makes one call, the write of the requested level to the request
    pin, and returns [true].  With both pins it writes the requested level
    to the request pin, writes no other pin, and returns [true] exactly
    when the confirmation pin reads the requested level at one of the 200
    millisecond instants from the start of the wait, [false] exactly when
    it does not. *)
Theorem xbee_sleep_wake_pin_cases
        {S} `{Stream S} (self : XBeeRadio.t) (w : world (xbee_hw S) xbee_call) :
  pin_gated (XBeeRadio.dormir self)
            (XBeeRadio._pinSleepRq self) (XBeeRadio._pinOnSleep self) LOW w
  /\ pin_gated (XBeeRadio.despertar self)
               (XBeeRadio._pinSleepRq self) (XBeeRadio._pinOnSleep self) HIGH w.
Proof. split; [apply xbee_dormir_cases | apply xbee_despertar_cases]. Qed.

(** C9.  [iniciar] returns [true] in every configuration and every world.
    It configures the pins that are set, then runs [despertar] and drops
    its verdict: the world [iniciar] ends in is the world that call ends
    in.  In particular, with both pins set and a confirmation pin that
    reads [HIGH] at none of the 200 instants of the wait, that call returns
    [false] and [iniciar] returns [true] all the same. *)
Theorem xbee_iniciar_always_true
        {S} `{Stream S} (self : XBeeRadio.t) (w : world (xbee_hw S) xbee_call) :
  exists w1 woke w',
    hw w1 = hw w
    /\ calls w1 = calls w ++ pin_modes self
    /\ XBeeRadio.despertar self w1 = Done (woke, w')
    /\ XBeeRadio.iniciar self w = Done (true, w')
    /\ (0 <= XBeeRadio._pinSleepRq self ->
        0 <= XBeeRadio._pinOnSleep self ->
        ~ confirmed (pins (hw w)) (uint8 (XBeeRadio._pinOnSleep self)) HIGH ->
        woke = false).
Proof.
  set (w1 := World (hw w) (calls w ++ pin_modes self)).
  destruct (xbee_despertar_returns self w1) as (woke & w' & Hwake).
  exists w1, woke, w'. split; [reflexivity|]. split; [reflexivity|].
  split; [exact Hwake|]. split.
  - revert Hwake. subst w1. unfold XBeeRadio.iniciar, pin_modes.
    destruct w as [[s b] log]. cbn [hw calls].
    destruct (XBeeRadio._pinSleepRq self >=? 0),
             (XBeeRadio._pinOnSleep self >=? 0);
      intros Hwake; repeat step; unfold pinMode; cbn [fst snd app] in *;
      rewrite <- ?app_assoc, ?app_nil_r in *; cbn [app] in *;
      rewrite run_bind, Hwake; reflexivity.
  - intros Hrq Hon Hstuck.
    destruct (xbee_despertar_cases self w1) as (_ & _ & Hboth).
    destruct (Hboth Hrq Hon) as (b & w'' & Hrun & _ & _ & Hfalse).
    rewrite Hwake in Hrun. injection Hrun as -> _.
    apply Hfalse. exact Hstuck.
Qed.

Lemma stuck_never_confirms (level other start pin : Z) :
  level <> other -> ~ confirmed (Board start (Sim.stuck level)) pin other.
Proof. intros Hne (k & _ & Hk). cbn in Hk. contradiction. Qed.

(** Scenario D: with the confirmation pin stuck at [HIGH], [dormir] returns
    [false]. *)
Lemma xbee_sleep_wake_pin_cases_witness :
  exists w',
    XBeeRadio.dormir xbee_both_pins (xbee_world (Sim.stuck HIGH)) = Done (false, w')
    /\ pin_writes (calls w') = [(4, LOW)].
Proof.
  destruct (xbee_sleep_wake_pin_cases xbee_both_pins (xbee_world (Sim.stuck HIGH)))
    as [(_ & _ & Hboth) _].
  destruct Hboth as (b & w' & Hrun & Hwrites & _ & Hfalse);
    [cbn; lia | cbn; lia |].
  assert (b = false) as ->
    by (apply Hfalse, stuck_never_confirms; discriminate).
  exists w'. split; [exact Hrun | exact Hwrites].
Defined.

Lemma xbee_iniciar_always_true_witness :
  exists w1 w',
    XBeeRadio.despertar xbee_both_pins w1 = Done (false, w')
    /\ XBeeRadio.iniciar xbee_both_pins (xbee_world (Sim.stuck LOW)) = Done (true, w').
Proof.
  destruct (xbee_iniciar_always_true xbee_both_pins (xbee_world (Sim.stuck LOW)))
    as (w1 & woke & w' & _ & _ & Hwake & Hinit & Hstuck).
  assert (woke = false) as ->
    by (apply Hstuck; [cbn; lia | cbn; lia | apply stuck_never_confirms; discriminate]).
  exists w1, w'. split; [exact Hwake | exact Hinit].
Defined.

(** Scenario C: with the request pin alone, [dormir] drives it [LOW] and
    returns [true] at once; the clock has not moved. *)
Example xbee_dormir_unconfirmed :
  XBeeRadio.dormir
    {| XBeeRadio._baudios := 9600; XBeeRadio._pinSleepRq := 4;
       XBeeRadio._pinOnSleep := -1 |}
    (xbee_world (Sim.stuck HIGH))
  = Done (true, World (XBeeHw (Sim.Uart [] [] 64) (Board 1000 (Sim.stuck HIGH)))
                      [XDigitalWrite 4 LOW]).
Proof. reflexivity. Qed.

(** An XBee that confirms 7 ms after the request: [dormir] returns [true]
    at instant 1007. *)
Example xbee_dormir_confirmed_after_lag :
  exists w',
    XBeeRadio.dormir xbee_both_pins (xbee_world (Sim.follows 5 1000 7 LOW))
    = Done (true, w')
    /\ clock (pins (hw w')) = 1007.
Proof. eexists. split; vm_compute; reflexivity. Qed.

(** Scenario D, timing: the failed wait ends 200 ms after it started. *)
Example xbee_dormir_timeout_instant :
  exists w',
    XBeeRadio.dormir xbee_both_pins (xbee_world (Sim.stuck HIGH))
    = Done (false, w')
    /\ clock (pins (hw w')) = 1200.
Proof. eexists. split; vm_compute; reflexivity. Qed.

(** ** The decoding facade *)

Lemma c_str_stops_at_nul (bytes rest : list Z) :
  c_str (bytes ++ 0 :: rest) = c_str (bytes ++ [0]).
Proof.
  induction bytes as [|b bytes IH]; [reflexivity|].
  cbn [app c_str]. rewrite IH. reflexivity.
Qed.

Lemma c_str_terminated (bytes : list Z) :
  exists text, c_str (bytes ++ [0]) = Some text
               /\ (length text <= length bytes)%nat.
Proof.
  induction bytes as [|b bytes (text & Htext & Hlen)].
  - exists []. split; [reflexivity | cbn; lia].
  - cbn [app c_str]. destruct (b =? 0).
    + exists []. split; [reflexivity | cbn; lia].
    + rewrite Htext. exists (b :: text). split; [reflexivity | cbn; lia].
Qed.

Lemma c_str_without_nul (bytes : list Z) :
  Forall (fun b => b <> 0) bytes -> c_str (bytes ++ [0]) = Some bytes.
Proof.
  induction 1 as [|b bytes Hb _ IH]; [reflexivity|].
  cbn [app c_str]. apply Z.eqb_neq in Hb. rewrite Hb, IH. reflexivity.
Qed.

(** C8.  [leerComoString] reads into a 256-byte array with capacity 255.
    Whenever that read returns a count [longitud] of at most 255, the
    terminator written at index [longitud] is inside the array, the facade
    returns, and the text it returns is the C string of the [longitud]
    bytes read, so at most 255 bytes long.  When those bytes are the first
    255 bytes of a longer payload and none of them is NUL, the text is
    exactly these 255 bytes: the rest of the payload is dropped without any
    signal. *)
Theorem leerComoString_terminator_in_bounds
        {Obj St} `{RadioInterface.t Obj St}
        (self : Obj) (junk : nat -> Z) (s s' : St)
        (longitud : Z) (buffer : list Z) :
  RadioInterface.leer self (map junk (seq 0 256)) 255 s
  = Done ((longitud, buffer), s') ->
  0 <= longitud <= 255 ->
  length buffer = 256%nat ->
  exists text,
    RadioInterface.leerComoString self junk s = Done (text, s')
    /\ in_bounds buffer longitud = true
    /\ c_str (take (Z.to_nat longitud) buffer ++ [0]) = Some text
    /\ (length text <= 255)%nat
    /\ forall payload,
        (255 < length payload)%nat ->
        take (Z.to_nat longitud) buffer = take 255 payload ->
        Forall (fun b => b <> 0) (take 255 payload) ->
        text = take 255 payload /\ length text = 255%nat.
Proof.
  intros Hleer Hlen Hbuf.
  destruct (c_str_terminated (take (Z.to_nat longitud) buffer))
    as (text & Htext & Hshort).
  assert (Hin : in_bounds buffer longitud = true).
  { unfold in_bounds. rewrite Hbuf. apply andb_true_iff.
    split; [apply Z.leb_le | apply Z.ltb_lt]; lia. }
  exists text. split; [|split; [exact Hin|split; [exact Htext|split]]].
  - unfold RadioInterface.leerComoString.
    rewrite run_bind, Hleer. cbn beta iota zeta.
    rewrite run_bind, run_store by lia.
    rewrite insert_take_drop by lia.
    rewrite c_str_stops_at_nul, Htext. reflexivity.
  - rewrite length_take in Hshort. lia.
  - intros payload Hlong Hprefix Hnul.
    rewrite Hprefix, c_str_without_nul in Htext by exact Hnul.
    injection Htext as <-. split; [reflexivity|].
    rewrite length_take. lia.
Qed.

Lemma leerComoString_terminator_in_bounds_witness :
  exists text s',
    RadioInterface.leerComoString
      (H := XBeeRadio.radio (H := Sim.avr)) xbee_both_pins (fun _ => 170)
      (World (XBeeHw (Sim.Uart long_payload [] 64) (Board 0 (Sim.stuck LOW))) [])
    = Done (text, s')
    /\ text = take 255 long_payload
    /\ length text = 255%nat.
Proof.
  destruct (leerComoString_terminator_in_bounds
              (H := XBeeRadio.radio (H := Sim.avr)) xbee_both_pins (fun _ => 170)
              (World (XBeeHw (Sim.Uart long_payload [] 64)
                             (Board 0 (Sim.stuck LOW))) [])
              (World (XBeeHw (Sim.Uart (drop 255 long_payload) [] 64)
                             (Board 0 (Sim.stuck LOW)))
                     [XAvailable 300; XReadBytes 255 (take 255 long_payload)])
              255 (take 255 long_payload ++ [170]))
    as (text & Hrun & _ & _ & _ & Hpayload).
  - vm_compute. reflexivity.
  - lia.
  - vm_compute. reflexivity.
  - destruct (Hpayload long_payload) as [Htext Hlen].
    + vm_compute. lia.
    + vm_compute. reflexivity.
    + apply Forall_take, Forall_replicate. discriminate.
    + eexists text, _. split; [exact Hrun | split; [exact Htext | exact Hlen]].
Defined.

(** ** Truncated reads on the LoRa driver *)

Section LoRaPackets.
Context `{Platform} {L : Type} `{LoRaClass L}.

(** The packet interface of the LoRa library, as its documentation states
    it: [unread] is what is left of the current packet, [arrived] tells
    whether a received packet waits to be reported by [parsePacket]. *)
Variable unread : L -> list Z.
Variable arrived : L -> bool.
Hypothesis available_counts :
  forall l, LoRa_available l = (Z.of_nat (length (unread l)), l).
Hypothesis read_takes_next :
  forall l b rest,
    unread l = b :: rest ->
    (LoRa_read l).1 = b
    /\ unread (LoRa_read l).2 = rest
    /\ arrived (LoRa_read l).2 = arrived l.
Hypothesis parsePacket_idle :
  forall l, arrived l = false -> (LoRa_parsePacket l).1 = 0.

Variable maxLongitud : Z.
Hypothesis size_t_value : 0 <= maxLongitud < 2 ^ size_bits.

Lemma lora_leer_loop_drains (fuel : nat) :
  forall (buffer : list Z) (n : Z) (w : world L lora_call),
    0 <= n <= maxLongitud ->
    maxLongitud <= Z.of_nat (length buffer) ->
    maxLongitud - n < Z.of_nat fuel ->
    exists w',
      LoraRadio.leer_loop fuel buffer maxLongitud n w
      = Done ((n + Z.of_nat (taken unread maxLongitud n (hw w)),
               take (Z.to_nat n) buffer
                 ++ map uint8 (take (taken unread maxLongitud n (hw w)) (unread (hw w)))
                 ++ drop (Z.to_nat n + taken unread maxLongitud n (hw w)) buffer),
              w')
      /\ unread (hw w') = drop (taken unread maxLongitud n (hw w)) (unread (hw w))
      /\ arrived (hw w') = arrived (hw w).
Proof.
  induction fuel as [|fuel IH]; intros buffer n w Hn Hcap Hfuel; [lia|].
  cbn [LoraRadio.leer_loop]. step. rewrite available_counts. cbn [fst snd].
  unfold taken. destruct (unread (hw w)) as [|b rest] eqn:Hunread.
  - cbn [length Nat.min take map drop app].
    change (Z.of_nat 0) with 0. cbn [Z.eqb negb andb]. step.
    rewrite Z.add_0_r, Nat.add_0_r, take_drop.
    eexists. split; [reflexivity|]. cbn [hw]. rewrite Hunread. split; reflexivity.
  - destruct (Z.ltb_spec n maxLongitud) as [Hlt|Hge].
    + replace (Z.of_nat (length (b :: rest)) =? 0) with false
        by (symmetry; apply Z.eqb_neq; cbn [length]; lia).
      cbn [negb andb]. step.
      destruct (read_takes_next (hw w) b rest Hunread) as (Hb & Hrest & Harr).
      rewrite Hb, run_bind, run_store by lia.
      unfold size_t. rewrite wrap_small by lia.
      edestruct (IH (<[Z.to_nat n := uint8 b]> buffer) (n + 1))
        as (w' & Hrun & Hleft & Harrived);
        [lia | rewrite length_insert; lia | lia |].
      rewrite Hrun. unfold taken. cbn [hw]. rewrite Hrest.
      replace (Z.to_nat (maxLongitud - n))
        with (Datatypes.S (Z.to_nat (maxLongitud - (n + 1)))) by lia.
      set (k := Nat.min (length rest) (Z.to_nat (maxLongitud - (n + 1)))).
      cbn [length Nat.min]. fold k. cbn [take map drop].
      exists w'. split; [|split].
      * f_equal. f_equal. f_equal; [lia|].
        replace (Z.to_nat (n + 1)) with (Datatypes.S (Z.to_nat n)) by lia.
        rewrite (take_S_r _ _ (uint8 b))
          by (apply list_lookup_insert_eq; lia).
        rewrite take_insert_ge by lia.
        rewrite drop_insert_lt by lia.
        rewrite <- app_assoc. cbn [app].
        replace (Z.to_nat n + Datatypes.S k)%nat
          with (Datatypes.S (Z.to_nat n) + k)%nat by lia.
        reflexivity.
      * unfold taken in Hleft. cbn [hw] in Hleft. rewrite Hrest in Hleft.
        exact Hleft.
      * rewrite Harrived. cbn [hw]. exact Harr.
    + rewrite andb_false_r. step.
      replace (Z.to_nat (maxLongitud - n)) with 0%nat by lia.
      rewrite Nat.min_0_r. cbn [take map drop app].
      rewrite Z.add_0_r, Nat.add_0_r, take_drop.
      eexists. split; [reflexivity|]. cbn [hw]. rewrite Hunread.
      split; reflexivity.
Qed.

Lemma lora_leer_drains (self : LoraRadio.t) (buffer : list Z)
      (w : world L lora_call) :
  maxLongitud <= Z.of_nat (length buffer) ->
  exists w',
    LoraRadio.leer self buffer maxLongitud w
    = Done ((Z.of_nat (taken unread maxLongitud 0 (hw w)),
             map uint8 (take (taken unread maxLongitud 0 (hw w)) (unread (hw w)))
               ++ drop (taken unread maxLongitud 0 (hw w)) buffer),
            w')
    /\ unread (hw w') = drop (taken unread maxLongitud 0 (hw w)) (unread (hw w))
    /\ arrived (hw w') = arrived (hw w).
Proof.
  intros Hcap. unfold LoraRadio.leer.
  destruct (lora_leer_loop_drains (Datatypes.S (Z.to_nat maxLongitud)) buffer 0 w)
    as (w' & Hrun & Hleft); [lia | lia | lia |].
  exists w'. split; [exact Hrun | exact Hleft].
Qed.

End LoRaPackets.

(** C6, refuted as stated: after a read of 2 bytes of the 5-byte packet, a
    second read with room for 3 bytes returns the 3 bytes that were left. *)
Lemma lora_truncated_tail_counterexample :
  ~ truncated_tail_unrecoverable (H := Sim.avr)
      lora_868 five_bytes 2 (lora_world five_bytes).
Proof.
  intros Hclaim.
  destruct (Hclaim [0; 0] 2 [1; 2] _ ltac:(cbn; lia) eq_refl) as [_ Hsecond].
  apply (Hsecond [0; 0; 0] 3 3 [3; 4; 5] _ eq_refl). reflexivity.
Qed.

(** C6, as the code has it.  Let the provider follow the packet interface
    of the LoRa library: [available] counts the unread bytes of the current
    packet and changes nothing, [read] takes the next of them, and
    [parsePacket] answers 0 when no new packet has arrived.  When [leer] is
    called with capacity [maxLongitud] on a packet with more than
    [maxLongitud] unread bytes, it returns [maxLongitud] and stores the
    first [maxLongitud] bytes of the packet; a poll that follows answers 0
    as long as no new packet has arrived; but [leer] itself discards
    nothing, and a second [leer] that follows the first returns the next
    bytes of the same packet, as many as fit. *)
Theorem lora_truncated_tail_stays_readable
        `{Platform} {L} `{LoRaClass L}
        (unread : L -> list Z) (arrived : L -> bool)
        (self : LoraRadio.t) (buffer buffer2 : list Z)
        (maxLongitud maxLongitud2 : Z) (w : world L lora_call) :
  (forall l, LoRa_available l = (Z.of_nat (length (unread l)), l)) ->
  (forall l b rest,
      unread l = b :: rest ->
      (LoRa_read l).1 = b
      /\ unread (LoRa_read l).2 = rest
      /\ arrived (LoRa_read l).2 = arrived l) ->
  (forall l, arrived l = false -> (LoRa_parsePacket l).1 = 0) ->
  0 <= maxLongitud < 2 ^ size_bits ->
  maxLongitud <= Z.of_nat (length buffer) ->
  0 <= maxLongitud2 < 2 ^ size_bits ->
  maxLongitud2 <= Z.of_nat (length buffer2) ->
  arrived (hw w) = false ->
  maxLongitud < Z.of_nat (length (unread (hw w))) ->
  exists buffer' w1,
    LoraRadio.leer self buffer maxLongitud w = Done ((maxLongitud, buffer'), w1)
    /\ take (Z.to_nat maxLongitud) buffer'
       = map uint8 (take (Z.to_nat maxLongitud) (unread (hw w)))
    /\ (exists w2, LoraRadio.hayDatosDisponibles self w1 = Done (0, w2))
    /\ exists r2 buffer2' w2,
        LoraRadio.leer self buffer2 maxLongitud2 w1 = Done ((r2, buffer2'), w2)
        /\ r2 = Z.min maxLongitud2
                      (Z.of_nat (length (unread (hw w))) - maxLongitud)
        /\ take (Z.to_nat r2) buffer2'
           = map uint8 (take (Z.to_nat r2)
                             (drop (Z.to_nat maxLongitud) (unread (hw w)))).
Proof.
  intros Havail Hread Hparse Hmax Hcap Hmax2 Hcap2 Hidle Hlong.
  destruct (lora_leer_drains unread arrived Havail Hread maxLongitud Hmax
              self buffer w Hcap) as (w1 & Hrun1 & Hleft1 & Harr1).
  destruct (lora_leer_drains unread arrived Havail Hread maxLongitud2 Hmax2
              self buffer2 w1 Hcap2) as (w2 & Hrun2 & _).
  assert (Hk1 : taken unread maxLongitud 0 (hw w) = Z.to_nat maxLongitud)
    by (unfold taken; lia).
  rewrite Hk1 in Hrun1, Hleft1.
  set (k2 := taken unread maxLongitud2 0 (hw w1)) in *.
  assert (Hk2 : Z.of_nat k2
                = Z.min maxLongitud2
                        (Z.of_nat (length (unread (hw w))) - maxLongitud)).
  { subst k2. unfold taken. rewrite Hleft1, length_drop. lia. }
  rewrite Z2Nat.id in Hrun1 by lia.
  do 2 eexists. split; [exact Hrun1|]. split; [|split].
  - rewrite take_app_length'; [reflexivity|].
    rewrite length_map, length_take. lia.
  - unfold LoraRadio.hayDatosDisponibles. rewrite run_call.
    rewrite Hparse by (rewrite Harr1; exact Hidle).
    eexists. reflexivity.
  - do 3 eexists. split; [exact Hrun2|]. split; [exact Hk2|].
    rewrite Nat2Z.id, Hleft1.
    rewrite take_app_length'; [reflexivity|].
    rewrite length_map, length_take, length_drop.
    subst k2. unfold taken. rewrite Hleft1, length_drop. lia.
Qed.

Lemma sim_lora_read_takes_next (l : Sim.lora) (b : Z) (rest : list Z) :
  Sim.lora_unread l = b :: rest ->
  (LoRa_read l).1 = b
  /\ Sim.lora_unread (LoRa_read l).2 = rest
  /\ sim_lora_arrived (LoRa_read l).2 = sim_lora_arrived l.
Proof.
  intros Hunread. cbn. unfold Sim.lora_read. rewrite Hunread.
  repeat split.
Qed.

Lemma sim_lora_parsePacket_idle (l : Sim.lora) :
  sim_lora_arrived l = false -> (LoRa_parsePacket l).1 = 0.
Proof.
  unfold sim_lora_arrived. cbn. unfold Sim.lora_parsePacket.
  destruct (Sim.lora_arrived l); [discriminate | reflexivity].
Qed.

(** Scenario B, and the second read that follows it. *)
Lemma lora_truncated_tail_stays_readable_witness :
  exists buffer' w1,
    LoraRadio.leer (H := Sim.avr) lora_868 [0; 0] 2 (lora_world five_bytes)
    = Done ((2, buffer'), w1)
    /\ (exists w2, LoraRadio.hayDatosDisponibles lora_868 w1 = Done (0, w2))
    /\ exists buffer2' w2,
        LoraRadio.leer (H := Sim.avr) lora_868 [0; 0; 0] 3 w1
        = Done ((3, buffer2'), w2)
        /\ take 3 buffer2' = [3; 4; 5].
Proof.
  destruct (lora_truncated_tail_stays_readable (H := Sim.avr)
              Sim.lora_unread sim_lora_arrived lora_868 [0; 0] [0; 0; 0] 2 3
              (lora_world five_bytes))
    as (buffer' & w1 & Hrun1 & _ & Hpoll & r2 & buffer2' & w2 & Hrun2 & Hr2 & Htail).
  - reflexivity.
  - exact sim_lora_read_takes_next.
  - exact sim_lora_parsePacket_idle.
  - vm_compute. split; [discriminate | reflexivity].
  - vm_compute. discriminate.
  - vm_compute. split; [discriminate | reflexivity].
  - vm_compute. discriminate.
  - reflexivity.
  - vm_compute. reflexivity.
  - vm_compute in Hr2. subst r2.
    exists buffer', w1. split; [exact Hrun1|]. split; [exact Hpoll|].
    exists buffer2', w2. split; [exact Hrun2 | exact Htail].
Defined.

(** * Further properties of the drivers *)

(** ** LoRa: bring-up and transmission *)



(** With nothing to read, because [available] answers 0 or because the
    capacity is 0, [leer] returns 0 and the buffer as it was, after a single
    [available] call: [read] is never called. *)
Theorem lora_leer_nothing_to_read
        `{Platform} {L} `{LoRaClass L} (self : LoraRadio.t)
        (buffer : list Z) (maxLongitud : Z) (w : world L lora_call) :
  (LoRa_available (hw w)).1 = 0 \/ maxLongitud <= 0 ->
  LoraRadio.leer self buffer maxLongitud w
  = Done ((0, buffer),
          World (LoRa_available (hw w)).2
                (calls w ++ [LAvailable (LoRa_available (hw w)).1])).
Proof.
  intros Hnothing. unfold LoraRadio.leer. cbn [LoraRadio.leer_loop]. step.
  replace (negb ((LoRa_available (hw w)).1 =? 0) && (0 <? maxLongitud))
    with false; [reflexivity|].
  symmetry. apply andb_false_iff. destruct Hnothing as [Hzero|Hcap].
  - left. rewrite Hzero. reflexivity.
  - right. apply Z.ltb_ge. exact Hcap.
Qed.

Lemma lora_leer_nothing_to_read_witness :
  LoraRadio.leer (H := Sim.avr) lora_868 [9; 9] 0 (lora_world five_bytes)
  = Done ((0, [9; 9]),
          World (Sim.LoRaSim true false None five_bytes (-40))
                ([] ++ [LAvailable 5])).
Proof.
  exact (lora_leer_nothing_to_read (H := Sim.avr) lora_868 [9; 9] 0
           (lora_world five_bytes) (or_intror (Z.le_refl 0))).
Defined.

(** ** What a read leaves of the buffer *)

Section ReadFrame.
Context `{Platform}.
Variable maxLongitud : Z.
Hypothesis size_t_value : 0 <= maxLongitud < 2 ^ size_bits.

Lemma lora_leer_loop_frame {L} `{LoRaClass L} (fuel : nat) :
  forall (buffer : list Z) (n : Z) (w : world L lora_call),
    0 <= n <= maxLongitud ->
    maxLongitud <= Z.of_nat (length buffer) ->
    maxLongitud - n < Z.of_nat fuel ->
    exists r buffer' w',
      LoraRadio.leer_loop fuel buffer maxLongitud n w = Done ((r, buffer'), w')
      /\ n <= r <= maxLongitud
      /\ length buffer' = length buffer
      /\ drop (Z.to_nat r) buffer' = drop (Z.to_nat r) buffer.
Proof.
  induction fuel as [|fuel IH]; intros buffer n w Hn Hcap Hfuel; [lia|].
  cbn [LoraRadio.leer_loop]. step.
  destruct (negb _ && (n <? maxLongitud)) eqn:Hcond.
  - apply andb_true_iff in Hcond as [_ Hlt]. apply Z.ltb_lt in Hlt.
    step. rewrite run_bind, run_store by lia.
    unfold size_t. rewrite wrap_small by lia.
    edestruct (IH (<[Z.to_nat n := uint8 (LoRa_read (LoRa_available (hw w)).2).1]> buffer)
                  (n + 1))
      as (r & b' & w' & Hrun & Hr & Hlen & Hrest);
      [lia | rewrite length_insert; lia | lia |].
    exists r, b', w'. split; [exact Hrun|]. split; [lia|].
    rewrite length_insert in Hlen. split; [exact Hlen|].
    rewrite Hrest. apply drop_insert_lt. lia.
  - step. exists n, buffer. eexists. split; [reflexivity|].
    split; [lia|]. split; reflexivity.
Qed.

Lemma nrf_leer_frame {R} `{RF24 R} (self : NrfRadio.t)
      (buffer : list Z) (w : world R rf24_call) :
  (forall len r, 0 <= len -> Z.of_nat (length (RF24_read len r).1) <= len) ->
  maxLongitud <= Z.of_nat (length buffer) ->
  exists r buffer' w',
    NrfRadio.leer self buffer maxLongitud w = Done ((r, buffer'), w')
    /\ length buffer' = length buffer
    /\ drop (Z.to_nat r) buffer' = drop (Z.to_nat r) buffer.
Proof.
  intros Hdrain Hcap. unfold NrfRadio.leer. step.
  set (size := (RF24_getDynamicPayloadSize (hw w)).1).
  assert (Hpos : 0 < 2 ^ size_bits) by lia.
  pose proof (uint8_range size) as Hu8.
  pose proof (wrap_range size_bits (uint8 size) Hpos) as Hps.
  pose proof (wrap_le size_bits (uint8 size) (proj1 Hu8) Hpos) as Hle.
  fold (size_t (uint8 size)) in Hps, Hle.
  destruct (size_t (uint8 size) =? 0) eqn:Hzero.
  - step. exists 0, buffer. eexists. repeat split.
  - step. set (n := min (size_t (uint8 size)) maxLongitud).
    assert (Hn : 0 <= n <= maxLongitud /\ n < 256).
    { subst n. destruct (min_cases (size_t (uint8 size)) maxLongitud) as [[? ->]|[? ->]]; lia. }
    unfold uint8 at 1 2. rewrite (wrap_small 8 n) by (change (2 ^ 8) with 256; lia).
    match goal with |- context [RF24_read n ?r] =>
      pose proof (Hdrain n r (proj1 (proj1 Hn))) as Hd;
      set (res := RF24_read n r) in * end.
    rewrite run_bind, run_fill by lia. step.
    do 3 eexists. split; [reflexivity|]. split.
    + rewrite length_app, length_drop. lia.
    + rewrite drop_app_ge, drop_drop by lia. f_equal. lia.
Qed.

Lemma xbee_leer_frame {S} `{Stream S} (self : XBeeRadio.t)
      (buffer : list Z) (w : world (xbee_hw S) xbee_call) :
  (forall n s, 0 <= n -> Z.of_nat (length (Stream_readBytes n s).1) <= n) ->
  maxLongitud <= Z.of_nat (length buffer) ->
  exists r buffer' w',
    XBeeRadio.leer self buffer maxLongitud w = Done ((r, buffer'), w')
    /\ length buffer' = length buffer
    /\ drop (Z.to_nat r) buffer' = drop (Z.to_nat r) buffer.
Proof.
  intros Hdrain Hcap. unfold XBeeRadio.leer.
  destruct (maxLongitud =? 0) eqn:Hzero.
  - step. exists 0, buffer, w. repeat split.
  - step.
    destruct (Stream_available (serial (hw w))) as [avail s1].
    cbn [fst snd]. destruct (avail >? 0) eqn:Hgt.
    + step. set (n := min (size_t avail) maxLongitud).
      assert (Hn : 0 <= n <= maxLongitud).
      { assert (Hpos : 0 < 2 ^ size_bits) by lia.
        pose proof (wrap_range size_bits avail Hpos) as Hav.
        fold (size_t avail) in Hav. subst n.
        destruct (min_cases (size_t avail) maxLongitud) as [[? ->]|[? ->]]; lia. }
      pose proof (Hdrain n s1 (proj1 Hn)) as Hd.
      destruct (Stream_readBytes n s1) as [data s2]. cbn [fst snd] in *.
      rewrite run_bind, run_fill by lia. step.
      do 3 eexists. split; [reflexivity|]. split.
      * rewrite length_app, length_drop. lia.
      * rewrite Nat2Z.id. apply drop_app_length.
    + step. exists 0, buffer. eexists. repeat split.
Qed.

End ReadFrame.

(** Under the conditions of the read bound ([maxLongitud] a [size_t]
    value, a buffer with room for it, bulk reads that store no more than
    asked), [leer] of each driver hands the buffer back with its size
    unchanged and with every cell from index [r] on, [r] being the count it
    returns, holding what it held before: nothing is written past the bytes
    reported. *)
Theorem leer_writes_only_the_bytes_it_reports
        `{Platform} {L} `{LoRaClass L} {R} `{RF24 R} {S} `{Stream S}
        (maxLongitud : Z) (buffer : list Z) :
  0 <= maxLongitud < 2 ^ size_bits ->
  maxLongitud <= Z.of_nat (length buffer) ->
  (forall len r, 0 <= len -> Z.of_nat (length (RF24_read len r).1) <= len) ->
  (forall n s, 0 <= n -> Z.of_nat (length (Stream_readBytes n s).1) <= n) ->
  (forall (self : LoraRadio.t) (w : world L lora_call),
      exists r buffer' w',
        LoraRadio.leer self buffer maxLongitud w = Done ((r, buffer'), w')
        /\ length buffer' = length buffer
        /\ drop (Z.to_nat r) buffer' = drop (Z.to_nat r) buffer)
  /\ (forall (self : NrfRadio.t) (w : world R rf24_call),
         exists r buffer' w',
           NrfRadio.leer self buffer maxLongitud w = Done ((r, buffer'), w')
           /\ length buffer' = length buffer
           /\ drop (Z.to_nat r) buffer' = drop (Z.to_nat r) buffer)
  /\ (forall (self : XBeeRadio.t) (w : world (xbee_hw S) xbee_call),
         exists r buffer' w',
           XBeeRadio.leer self buffer maxLongitud w = Done ((r, buffer'), w')
           /\ length buffer' = length buffer
           /\ drop (Z.to_nat r) buffer' = drop (Z.to_nat r) buffer).
Proof.
  intros Hmax Hcap Hrf24 Hstream. repeat split.
  - intros self w. unfold LoraRadio.leer.
    destruct (lora_leer_loop_frame maxLongitud Hmax
                (Datatypes.S (Z.to_nat maxLongitud)) buffer 0 w)
      as (r & b' & w' & Hrun & _ & Hlen & Hrest); [lia | lia | lia |].
    now exists r, b', w'.
  - intros self w. now apply nrf_leer_frame.
  - intros self w. now apply xbee_leer_frame.
Qed.

Lemma leer_writes_only_the_bytes_it_reports_witness :
  (forall (self : LoraRadio.t) (w : world Sim.lora lora_call),
      exists r buffer' w',
        LoraRadio.leer (H := Sim.avr) self [7; 8; 9] 2 w = Done ((r, buffer'), w')
        /\ length buffer' = 3%nat
        /\ drop (Z.to_nat r) buffer' = drop (Z.to_nat r) [7; 8; 9])
  /\ (forall (self : NrfRadio.t) (w : world Sim.rf24 rf24_call),
         exists r buffer' w',
           NrfRadio.leer (H := Sim.avr) self [7; 8; 9] 2 w = Done ((r, buffer'), w')
           /\ length buffer' = 3%nat
           /\ drop (Z.to_nat r) buffer' = drop (Z.to_nat r) [7; 8; 9])
  /\ (forall (self : XBeeRadio.t) (w : world (xbee_hw Sim.uart) xbee_call),
         exists r buffer' w',
           XBeeRadio.leer (H := Sim.avr) self [7; 8; 9] 2 w = Done ((r, buffer'), w')
           /\ length buffer' = 3%nat
           /\ drop (Z.to_nat r) buffer' = drop (Z.to_nat r) [7; 8; 9]).
Proof.
  apply (leer_writes_only_the_bytes_it_reports (H := Sim.avr) 2 [7; 8; 9]).
  - vm_compute. split; [discriminate | reflexivity].
  - vm_compute. discriminate.
  - exact sim_rf24_read_length.
  - exact sim_uart_readBytes_length.
Defined.

(** ** LoRa: polling, then reading *)

Section LoRaReception.
Context `{Platform} {L : Type} `{LoRaClass L}.

(** The packet interface of the LoRa library again, now with the packet
    that waits to be reported: [parsePacket] answers its size and makes it
    the current packet. *)
Variable unread : L -> list Z.
Variable arrived : L -> option (list Z).
Hypothesis available_counts :
  forall l, LoRa_available l = (Z.of_nat (length (unread l)), l).
Hypothesis read_takes_next :
  forall l b rest,
    unread l = b :: rest ->
    (LoRa_read l).1 = b /\ unread (LoRa_read l).2 = rest.
Hypothesis parsePacket_reports :
  forall l p,
    arrived l = Some p ->
    (LoRa_parsePacket l).1 = Z.of_nat (length p)
    /\ unread (LoRa_parsePacket l).2 = p.

(** The usual receive step: poll, then read with the size the poll
    answered.  When a packet [p] has arrived and fits the buffer, the poll
    answers its size, the read returns that size and stores the whole
    packet at the front of the buffer, and nothing of the packet is left in
    the provider. *)
Theorem lora_poll_then_read_whole_packet
        (self : LoraRadio.t) (buffer p : list Z) (w : world L lora_call) :
  arrived (hw w) = Some p ->
  Z.of_nat (length p) < 2 ^ size_bits ->
  (length p <= length buffer)%nat ->
  exists w1 w2,
    LoraRadio.hayDatosDisponibles self w = Done (Z.of_nat (length p), w1)
    /\ LoraRadio.leer self buffer (Z.of_nat (length p)) w1
       = Done ((Z.of_nat (length p), map uint8 p ++ drop (length p) buffer), w2)
    /\ unread (hw w2) = [].
Proof.
  intros Harrived Hsize Hroom.
  destruct (parsePacket_reports (hw w) p Harrived) as [Hanswer Hcurrent].
  set (w1 := World (LoRa_parsePacket (hw w)).2
                   (calls w ++ [LParsePacket (Z.of_nat (length p))])).
  assert (Hread : forall l b rest,
             unread l = b :: rest ->
             (LoRa_read l).1 = b
             /\ unread (LoRa_read l).2 = rest
             /\ (fun _ : L => false) (LoRa_read l).2 = (fun _ : L => false) l).
  { intros l b rest Hl. destruct (read_takes_next l b rest Hl). now repeat split. }
  assert (Hvalue : 0 <= Z.of_nat (length p) < 2 ^ size_bits) by lia.
  assert (Hcap : Z.of_nat (length p) <= Z.of_nat (length buffer)) by lia.
  destruct (lora_leer_drains unread (fun _ => false) available_counts Hread
              (Z.of_nat (length p)) Hvalue self buffer w1 Hcap)
    as (w2 & Hrun & Hleft & _).
  assert (Htaken : taken unread (Z.of_nat (length p)) 0 (hw w1) = length p).
  { unfold taken. subst w1. cbn [hw]. rewrite Hcurrent. lia. }
  rewrite Htaken in Hrun, Hleft.
  subst w1. cbn [hw] in Hrun, Hleft. rewrite Hcurrent in Hrun, Hleft.
  rewrite firstn_all in Hrun. rewrite drop_all in Hleft.
  eexists _, w2. split; [|split; [exact Hrun | exact Hleft]].
  unfold LoraRadio.hayDatosDisponibles. rewrite run_call, Hanswer. reflexivity.
Qed.

End LoRaReception.

Lemma sim_lora_available_counts (l : Sim.lora) :
  LoRa_available l = (Z.of_nat (length (Sim.lora_unread l)), l).
Proof. reflexivity. Qed.

Lemma sim_lora_read_next (l : Sim.lora) (b : Z) (rest : list Z) :
  Sim.lora_unread l = b :: rest ->
  (LoRa_read l).1 = b /\ Sim.lora_unread (LoRa_read l).2 = rest.
Proof.
  intros Hunread. cbn. unfold Sim.lora_read. rewrite Hunread. now split.
Qed.

Lemma sim_lora_parsePacket_reports (l : Sim.lora) (p : list Z) :
  Sim.lora_arrived l = Some p ->
  (LoRa_parsePacket l).1 = Z.of_nat (length p)
  /\ Sim.lora_unread (LoRa_parsePacket l).2 = p.
Proof.
  intros Harrived. cbn. unfold Sim.lora_parsePacket. rewrite Harrived.
  now split.
Qed.

Lemma lora_poll_then_read_whole_packet_witness :
  exists w1 w2,
    LoraRadio.hayDatosDisponibles lora_868
      (World (Sim.LoRaSim true false (Some five_bytes) [] (-40)) [])
    = Done (5, w1)
    /\ LoraRadio.leer (H := Sim.avr) lora_868 [0; 0; 0; 0; 0; 0] 5 w1
       = Done ((5, [1; 2; 3; 4; 5; 0]), w2)
    /\ Sim.lora_unread (hw w2) = [].
Proof.
  apply (lora_poll_then_read_whole_packet (H := Sim.avr)
           Sim.lora_unread Sim.lora_arrived sim_lora_available_counts
           sim_lora_read_next sim_lora_parsePacket_reports
           lora_868 [0; 0; 0; 0; 0; 0] five_bytes
           (World (Sim.LoRaSim true false (Some five_bytes) [] (-40)) [])).
  - reflexivity.
  - vm_compute. reflexivity.
  - vm_compute. lia.
Defined.

(** ** NRF24L01: bring-up *)







(** ** NRF24L01: polling and reading *)

(** [hayDatosDisponibles] always answers a size between 0 and 255, and
    when [available] answers [false] it answers 0 without asking the radio
    for a payload size. *)
Theorem nrf_hayDatosDisponibles_range
        {R} `{RF24 R} (self : NrfRadio.t) (w : world R rf24_call) :
  exists n w',
    NrfRadio.hayDatosDisponibles self w = Done (n, w')
    /\ 0 <= n <= 255
    /\ ((RF24_available (hw w)).1 = false ->
        n = 0 /\ calls w' = calls w ++ [RAvailable false]).
Proof.
  unfold NrfRadio.hayDatosDisponibles. step.
  destruct (RF24_available (hw w)).1 eqn:Hready.
  - do 2 step. do 2 eexists. split; [reflexivity|]. split; [|discriminate].
    match goal with |- context [uint8 ?x] => pose proof (uint8_range x) end. lia.
  - step. do 2 eexists. split; [reflexivity|]. split; [lia|].
    intros _. split; reflexivity.
Qed.

Section NrfReception.
Context `{Platform} {R : Type} `{RF24 R}.

(** The receive side of the RF24 library: [next r] is the payload at the
    head of the receive queue (empty when there is none);
    [getDynamicPayloadSize] answers its size, [read] copies its first
    bytes, and neither query changes the radio. *)
Variable next : R -> list Z.
Hypothesis available_pure : forall r, (RF24_available r).2 = r.
Hypothesis size_reports :
  forall r, RF24_getDynamicPayloadSize r = (Z.of_nat (length (next r)), r).
Hypothesis read_copies :
  forall len r, 0 <= len -> (RF24_read len r).1 = take (Z.to_nat len) (next r).

Lemma nrf_leer_prefix
      (self : NrfRadio.t) (buffer : list Z) (maxLongitud : Z)
      (w : world R rf24_call) :
  0 <= maxLongitud < 2 ^ size_bits ->
  maxLongitud <= Z.of_nat (length buffer) ->
  (length (next (hw w)) <= 32)%nat ->
  Z.of_nat (length (next (hw w))) < 2 ^ size_bits ->
  let k := Z.to_nat (Z.min (Z.of_nat (length (next (hw w)))) maxLongitud) in
  exists w',
    NrfRadio.leer self buffer maxLongitud w
    = Done ((Z.of_nat k, take k (next (hw w)) ++ drop k buffer), w').
Proof.
  intros Hmax Hcap Hpayload Hsize k. unfold NrfRadio.leer. step.
  rewrite size_reports. cbn [fst snd].
  set (len := Z.of_nat (length (next (hw w)))) in *.
  assert (Hps : size_t (uint8 len) = len).
  { unfold size_t, uint8. rewrite (wrap_small 8 len) by lia.
    apply wrap_small. lia. }
  cbv zeta. rewrite !Hps.
  destruct (Z.eqb_spec len 0) as [Hzero|Hnonzero].
  - step. eexists. subst k. rewrite Hzero.
    replace (Z.to_nat (Z.min 0 maxLongitud)) with 0%nat by lia. reflexivity.
  - step.
    assert (Hmin : min len maxLongitud = Z.of_nat k).
    { subst k. destruct (min_cases len maxLongitud) as [[? ->]|[? ->]]; lia. }
    rewrite Hmin. unfold uint8. rewrite wrap_small by lia.
    rewrite read_copies by lia. rewrite Nat2Z.id.
    assert (Hk : length (take k (next (hw w))) = k)
      by (rewrite length_take; lia).
    rewrite run_bind, run_fill by lia. step. rewrite Hk.
    eexists. reflexivity.
Qed.

(** [leer] returns the smaller of the payload size and the capacity, and
    stores that many bytes, the first ones of the payload, at the front of
    the buffer; the rest of the buffer keeps its content. *)
Theorem nrf_leer_copies_payload_prefix
        (self : NrfRadio.t) (buffer : list Z) (maxLongitud : Z)
        (w : world R rf24_call) :
  0 <= maxLongitud < 2 ^ size_bits ->
  maxLongitud <= Z.of_nat (length buffer) ->
  (length (next (hw w)) <= 32)%nat ->
  Z.of_nat (length (next (hw w))) < 2 ^ size_bits ->
  let k := Z.to_nat (Z.min (Z.of_nat (length (next (hw w)))) maxLongitud) in
  exists w',
    NrfRadio.leer self buffer maxLongitud w
    = Done ((Z.of_nat k, take k (next (hw w)) ++ drop k buffer), w').
Proof. apply nrf_leer_prefix. Qed.

(** The usual receive step: poll, then read with the size the poll
    answered.  When [available] answers [true] and the payload fits the
    buffer, the poll answers the payload size and the read returns the
    whole payload. *)
Theorem nrf_poll_then_read_whole_payload
        (self : NrfRadio.t) (buffer : list Z) (w : world R rf24_call) :
  (RF24_available (hw w)).1 = true ->
  (length (next (hw w)) <= 32)%nat ->
  Z.of_nat (length (next (hw w))) < 2 ^ size_bits ->
  (length (next (hw w)) <= length buffer)%nat ->
  exists w1 w2,
    NrfRadio.hayDatosDisponibles self w
    = Done (Z.of_nat (length (next (hw w))), w1)
    /\ NrfRadio.leer self buffer (Z.of_nat (length (next (hw w)))) w1
       = Done ((Z.of_nat (length (next (hw w))),
                next (hw w) ++ drop (length (next (hw w))) buffer), w2).
Proof.
  intros Hready Hpayload Hsize Hroom.
  set (payload := next (hw w)) in *.
  set (w1 := World (hw w) (calls w ++ [RAvailable true;
                                       RGetDynamicPayloadSize (Z.of_nat (length payload))])).
  assert (Hpoll : NrfRadio.hayDatosDisponibles self w
                  = Done (Z.of_nat (length payload), w1)).
  { unfold NrfRadio.hayDatosDisponibles. step. rewrite Hready, available_pure.
    step. rewrite size_reports. cbn [fst snd]. step. fold payload.
    unfold uint8. rewrite wrap_small by lia.
    subst w1. rewrite <- app_assoc. reflexivity. }
  destruct (nrf_leer_prefix self buffer
              (Z.of_nat (length payload)) w1) as (w2 & Hrun).
  - lia.
  - lia.
  - exact Hpayload.
  - exact Hsize.
  - exists w1, w2. split; [exact Hpoll|].
    cbn [hw] in Hrun. fold payload in Hrun.
    rewrite Z.min_id, Nat2Z.id, firstn_all in Hrun. exact Hrun.
Qed.

End NrfReception.

Lemma sim_rf24_available_pure (r : Sim.rf24) : (RF24_available r).2 = r.
Proof. reflexivity. Qed.

Lemma sim_rf24_size_reports (r : Sim.rf24) :
  RF24_getDynamicPayloadSize r = (Z.of_nat (length (sim_rf24_next r)), r).
Proof.
  cbn. unfold Sim.rf24_payload_size, sim_rf24_next.
  destruct (Sim.rf24_rx r); reflexivity.
Qed.

Lemma sim_rf24_read_copies (len : Z) (r : Sim.rf24) :
  0 <= len -> (RF24_read len r).1 = take (Z.to_nat len) (sim_rf24_next r).
Proof.
  intros _. cbn. unfold Sim.rf24_read, sim_rf24_next.
  destruct (Sim.rf24_rx r); [now rewrite take_nil | reflexivity].
Qed.

(** A read with room for 2 bytes on the 3-byte payload "Hi!". *)
Lemma nrf_leer_copies_payload_prefix_witness :
  exists w',
    NrfRadio.leer (H := Sim.avr) {| NrfRadio._config := nrf_config_pa7 |}
                  [0; 0; 0; 0] 2 (nrf_world [hi_bytes])
    = Done ((2, [72; 105; 0; 0]), w').
Proof.
  apply (nrf_leer_copies_payload_prefix (H := Sim.avr) sim_rf24_next
           sim_rf24_size_reports sim_rf24_read_copies
           {| NrfRadio._config := nrf_config_pa7 |} [0; 0; 0; 0] 2
           (nrf_world [hi_bytes])).
  - vm_compute. split; [discriminate | reflexivity].
  - vm_compute. discriminate.
  - vm_compute. lia.
  - vm_compute. reflexivity.
Defined.

Lemma nrf_poll_then_read_whole_payload_witness :
  exists w1 w2,
    NrfRadio.hayDatosDisponibles {| NrfRadio._config := nrf_config_pa7 |}
                                 (nrf_world [hi_bytes])
    = Done (3, w1)
    /\ NrfRadio.leer (H := Sim.avr) {| NrfRadio._config := nrf_config_pa7 |}
                     [0; 0; 0; 0] 3 w1
       = Done ((3, [72; 105; 33; 0]), w2).
Proof.
  apply (nrf_poll_then_read_whole_payload (H := Sim.avr) sim_rf24_next
           sim_rf24_available_pure sim_rf24_size_reports sim_rf24_read_copies
           {| NrfRadio._config := nrf_config_pa7 |} [0; 0; 0; 0]
           (nrf_world [hi_bytes])).
  - reflexivity.
  - vm_compute. lia.
  - vm_compute. reflexivity.
  - vm_compute. lia.
Defined.

(** ** XBee: reading from the stream *)

(** With capacity 0, [leer] returns 0 without a single call, so the world
    is as it was.  With a positive capacity and an [available] answer that
    is not positive, it returns 0 and the buffer as it was after that one
    call: [readBytes] is not called. *)
Theorem xbee_leer_nothing_to_read
        `{Platform} {S} `{Stream S} (self : XBeeRadio.t)
        (buffer : list Z) (maxLongitud : Z) (w : world (xbee_hw S) xbee_call) :
  (maxLongitud = 0 ->
   XBeeRadio.leer self buffer maxLongitud w = Done ((0, buffer), w))
  /\ (maxLongitud <> 0 ->
      (Stream_available (serial (hw w))).1 <= 0 ->
      exists w',
        XBeeRadio.leer self buffer maxLongitud w = Done ((0, buffer), w')
        /\ calls w' = calls w
                        ++ [XAvailable (Stream_available (serial (hw w))).1]).
Proof.
  unfold XBeeRadio.leer. split.
  - intros ->. reflexivity.
  - intros Hmax Hnone. apply Z.eqb_neq in Hmax. rewrite Hmax. step.
    replace ((Stream_available (serial (hw w))).1 >? 0) with false
      by (symmetry; rewrite Z.gtb_ltb; apply Z.ltb_ge; exact Hnone).
    step. eexists. split; reflexivity.
Qed.

Lemma xbee_leer_nothing_to_read_witness :
  XBeeRadio.leer (H := Sim.avr) xbee_both_pins [9; 9] 0 (uart_world five_bytes)
  = Done ((0, [9; 9]), uart_world five_bytes).
Proof.
  apply (xbee_leer_nothing_to_read (H := Sim.avr) xbee_both_pins [9; 9] 0
           (uart_world five_bytes)).
  reflexivity.
Defined.

Section XBeeReception.
Context `{Platform} {S : Type} `{Stream S}.

(** The receive side of an Arduino stream: [rx s] is what is buffered;
    [available] counts it and changes nothing, and [readBytes], asked for
    no more than is buffered, takes that many bytes from the front. *)
Variable rx : S -> list Z.
Hypothesis available_counts :
  forall s, Stream_available s = (Z.of_nat (length (rx s)), s).
Hypothesis readBytes_takes :
  forall n s,
    0 <= n <= Z.of_nat (length (rx s)) ->
    (Stream_readBytes n s).1 = take (Z.to_nat n) (rx s)
    /\ rx (Stream_readBytes n s).2 = drop (Z.to_nat n) (rx s).

Lemma xbee_leer_prefix
      (self : XBeeRadio.t) (buffer : list Z) (maxLongitud : Z)
      (w : world (xbee_hw S) xbee_call) :
  0 <= maxLongitud < 2 ^ size_bits ->
  maxLongitud <= Z.of_nat (length buffer) ->
  Z.of_nat (length (rx (serial (hw w)))) < 2 ^ size_bits ->
  let buffered := rx (serial (hw w)) in
  let k := Z.to_nat (Z.min (Z.of_nat (length buffered)) maxLongitud) in
  exists w',
    XBeeRadio.leer self buffer maxLongitud w
    = Done ((Z.of_nat k, take k buffered ++ drop k buffer), w')
    /\ rx (serial (hw w')) = drop k buffered.
Proof.
  intros Hmax Hcap Hsize buffered k. unfold XBeeRadio.leer.
  set (len := Z.of_nat (length buffered)) in *.
  assert (Hlen : 0 <= len < 2 ^ size_bits) by (split; [lia | exact Hsize]).
  destruct (Z.eqb_spec maxLongitud 0) as [Hzero|Hnonzero].
  - step. exists w. subst k. rewrite Hzero.
    replace (Z.to_nat (Z.min len 0)) with 0%nat by lia. split; reflexivity.
  - step. rewrite available_counts. cbn [fst snd]. fold buffered len.
    destruct (Z.gtb_spec len 0) as [Hsome|Hnone].
    + assert (Hwide : size_t len = len) by (apply wrap_small; lia).
      assert (Hmin : min len maxLongitud = Z.of_nat k).
      { subst k. destruct (min_cases len maxLongitud) as [[? ->]|[? ->]]; lia. }
      rewrite Hwide, Hmin. step.
      destruct (readBytes_takes (Z.of_nat k) (serial (hw w))) as [Hdata Hleft];
        [fold buffered len; lia|].
      rewrite Hdata, Nat2Z.id. fold buffered.
      assert (Hk : length (take k buffered) = k) by (rewrite length_take; lia).
      rewrite run_bind, run_fill by lia. step. rewrite Hk.
      eexists. split; [reflexivity|]. cbn [hw serial].
      rewrite Hleft, Nat2Z.id. reflexivity.
    + step. eexists. subst k.
      replace (Z.to_nat (Z.min len maxLongitud)) with 0%nat by lia.
      split; reflexivity.
Qed.

(** [leer] returns the smaller of the buffered count and the capacity,
    stores that many bytes, the first ones buffered, at the front of the
    buffer, and leaves the others in the stream. *)
Theorem xbee_leer_takes_buffered_prefix
        (self : XBeeRadio.t) (buffer : list Z) (maxLongitud : Z)
        (w : world (xbee_hw S) xbee_call) :
  0 <= maxLongitud < 2 ^ size_bits ->
  maxLongitud <= Z.of_nat (length buffer) ->
  Z.of_nat (length (rx (serial (hw w)))) < 2 ^ size_bits ->
  let buffered := rx (serial (hw w)) in
  let k := Z.to_nat (Z.min (Z.of_nat (length buffered)) maxLongitud) in
  exists w',
    XBeeRadio.leer self buffer maxLongitud w
    = Done ((Z.of_nat k, take k buffered ++ drop k buffer), w')
    /\ rx (serial (hw w')) = drop k buffered.
Proof. apply xbee_leer_prefix. Qed.

(** Two reads in a row return consecutive stretches of the stream: the
    second starts where the first stopped, so together they are a prefix of
    what was buffered, with no byte lost or repeated. *)
Theorem xbee_reads_are_consecutive
        (self : XBeeRadio.t) (buffer1 buffer2 : list Z)
        (maxLongitud1 maxLongitud2 : Z) (w : world (xbee_hw S) xbee_call) :
  0 <= maxLongitud1 < 2 ^ size_bits ->
  maxLongitud1 <= Z.of_nat (length buffer1) ->
  0 <= maxLongitud2 < 2 ^ size_bits ->
  maxLongitud2 <= Z.of_nat (length buffer2) ->
  Z.of_nat (length (rx (serial (hw w)))) < 2 ^ size_bits ->
  exists k1 k2 w1 w2,
    XBeeRadio.leer self buffer1 maxLongitud1 w
    = Done ((Z.of_nat k1, take k1 (rx (serial (hw w))) ++ drop k1 buffer1), w1)
    /\ XBeeRadio.leer self buffer2 maxLongitud2 w1
       = Done ((Z.of_nat k2,
                take k2 (drop k1 (rx (serial (hw w)))) ++ drop k2 buffer2), w2)
    /\ take k1 (rx (serial (hw w))) ++ take k2 (drop k1 (rx (serial (hw w))))
       = take (k1 + k2) (rx (serial (hw w)))
    /\ rx (serial (hw w2)) = drop (k1 + k2) (rx (serial (hw w))).
Proof.
  intros Hmax1 Hcap1 Hmax2 Hcap2 Hsize.
  destruct (xbee_leer_prefix self buffer1 maxLongitud1 w
              Hmax1 Hcap1 Hsize) as (w1 & Hrun1 & Hleft1).
  destruct (xbee_leer_prefix self buffer2 maxLongitud2 w1
              Hmax2 Hcap2) as (w2 & Hrun2 & Hleft2).
  { rewrite Hleft1, length_drop. lia. }
  rewrite Hleft1 in Hrun2, Hleft2. rewrite drop_drop in Hleft2.
  do 2 eexists. exists w1, w2.
  split; [exact Hrun1|]. split; [exact Hrun2|].
  split; [apply take_take_drop | exact Hleft2].
Qed.

(** The usual receive step: poll, then read with the count the poll
    answered.  When what is buffered fits the buffer, the read returns all
    of it and the stream is left empty. *)
Theorem xbee_poll_then_read_everything
        (self : XBeeRadio.t) (buffer : list Z) (w : world (xbee_hw S) xbee_call) :
  Z.of_nat (length (rx (serial (hw w)))) < 2 ^ size_bits ->
  (length (rx (serial (hw w))) <= length buffer)%nat ->
  let buffered := rx (serial (hw w)) in
  exists w1 w2,
    XBeeRadio.hayDatosDisponibles self w = Done (Z.of_nat (length buffered), w1)
    /\ XBeeRadio.leer self buffer (Z.of_nat (length buffered)) w1
       = Done ((Z.of_nat (length buffered),
                buffered ++ drop (length buffered) buffer), w2)
    /\ rx (serial (hw w2)) = [].
Proof.
  intros Hsize Hroom buffered.
  change (Z.of_nat (length buffered) < 2 ^ size_bits) in Hsize.
  change (length buffered <= length buffer)%nat in Hroom.
  set (w1 := World (XBeeHw (serial (hw w)) (pins (hw w)))
                   (calls w ++ [XAvailable (Z.of_nat (length buffered))])).
  assert (Hpoll : XBeeRadio.hayDatosDisponibles self w
                  = Done (Z.of_nat (length buffered), w1)).
  { unfold XBeeRadio.hayDatosDisponibles. step. rewrite available_counts.
    reflexivity. }
  destruct (xbee_leer_prefix self buffer
              (Z.of_nat (length buffered)) w1) as (w2 & Hrun & Hleft).
  - lia.
  - lia.
  - exact Hsize.
  - cbn [hw serial] in Hrun, Hleft. fold buffered in Hrun, Hleft.
    rewrite Z.min_id, Nat2Z.id in Hrun, Hleft.
    rewrite firstn_all in Hrun. rewrite drop_all in Hleft.
    exists w1, w2. split; [exact Hpoll|]. split; [exact Hrun | exact Hleft].
Qed.

End XBeeReception.

Lemma sim_uart_available_counts (u : Sim.uart) :
  Stream_available u = (Z.of_nat (length (Sim.uart_rx u)), u).
Proof. reflexivity. Qed.

Lemma sim_uart_readBytes_takes (n : Z) (u : Sim.uart) :
  0 <= n <= Z.of_nat (length (Sim.uart_rx u)) ->
  (Stream_readBytes n u).1 = take (Z.to_nat n) (Sim.uart_rx u)
  /\ Sim.uart_rx (Stream_readBytes n u).2 = drop (Z.to_nat n) (Sim.uart_rx u).
Proof. intros _. split; reflexivity. Qed.

Lemma xbee_leer_takes_buffered_prefix_witness :
  exists w',
    XBeeRadio.leer (H := Sim.avr) xbee_both_pins [0; 0; 0; 0] 2
                   (uart_world five_bytes)
    = Done ((2, [1; 2; 0; 0]), w')
    /\ Sim.uart_rx (serial (hw w')) = [3; 4; 5].
Proof.
  apply (xbee_leer_takes_buffered_prefix (H := Sim.avr) Sim.uart_rx
           sim_uart_available_counts sim_uart_readBytes_takes
           xbee_both_pins [0; 0; 0; 0] 2 (uart_world five_bytes)).
  - vm_compute. split; [discriminate | reflexivity].
  - vm_compute. discriminate.
  - vm_compute. reflexivity.
Defined.

Lemma xbee_reads_are_consecutive_witness :
  exists k1 k2 w1 w2,
    XBeeRadio.leer (H := Sim.avr) xbee_both_pins [0; 0] 2 (uart_world five_bytes)
    = Done ((Z.of_nat k1, take k1 five_bytes ++ drop k1 [0; 0]), w1)
    /\ XBeeRadio.leer (H := Sim.avr) xbee_both_pins [0; 0; 0; 0] 4 w1
       = Done ((Z.of_nat k2,
                take k2 (drop k1 five_bytes) ++ drop k2 [0; 0; 0; 0]), w2)
    /\ take k1 five_bytes ++ take k2 (drop k1 five_bytes)
       = take (k1 + k2) five_bytes
    /\ Sim.uart_rx (serial (hw w2)) = drop (k1 + k2) five_bytes.
Proof.
  apply (xbee_reads_are_consecutive (H := Sim.avr) Sim.uart_rx
           sim_uart_available_counts sim_uart_readBytes_takes
           xbee_both_pins [0; 0] [0; 0; 0; 0] 2 4 (uart_world five_bytes)).
  - vm_compute. split; [discriminate | reflexivity].
  - vm_compute. discriminate.
  - vm_compute. split; [discriminate | reflexivity].
  - vm_compute. discriminate.
  - vm_compute. reflexivity.
Defined.

Lemma xbee_poll_then_read_everything_witness :
  exists w1 w2,
    XBeeRadio.hayDatosDisponibles xbee_both_pins (uart_world five_bytes)
    = Done (5, w1)
    /\ XBeeRadio.leer (H := Sim.avr) xbee_both_pins [0; 0; 0; 0; 0; 0] 5 w1
       = Done ((5, [1; 2; 3; 4; 5; 0]), w2)
    /\ Sim.uart_rx (serial (hw w2)) = [].
Proof.
  apply (xbee_poll_then_read_everything (H := Sim.avr) Sim.uart_rx
           sim_uart_available_counts sim_uart_readBytes_takes
           xbee_both_pins [0; 0; 0; 0; 0; 0] (uart_world five_bytes)).
  - vm_compute. reflexivity.
  - vm_compute. lia.
Defined.

(** ** XBee: how long a power request takes *)

Section HandshakeTiming.
Context {S : Type} `{Stream S}.

(** The wait ends at the first instant at which the pin reads the level. *)
Lemma esperar_loop_first (pin level timeout start : Z) (sig : Z -> Z -> Z) :
  0 <= timeout < 2 ^ 32 ->
  forall (fuel : nat) (elapsed : Z) (s : S) (log : list xbee_call),
    0 <= elapsed <= timeout ->
    timeout - elapsed < Z.of_nat fuel ->
    (forall k, 0 <= k < elapsed -> sig (start + k) pin <> level) ->
    exists b w',
      XBeeRadio.esperar_loop fuel pin level timeout (uint32 start)
        (World (XBeeHw s (Board (start + elapsed) sig)) log)
      = Done (b, w')
      /\ forall k,
          0 <= k < timeout ->
          sig (start + k) pin = level ->
          (forall j, 0 <= j < k -> sig (start + j) pin <> level) ->
          b = true /\ clock (pins (hw w')) = start + k.
Proof.
  intros Htimeout.
  induction fuel as [|fuel IH]; intros elapsed s log He Hfuel Hnot; [lia|].
  cbn [XBeeRadio.esperar_loop]. step. unfold millis at 1 2. cbn [fst snd clock].
  rewrite uint32_elapsed by lia.
  destruct (Z.ltb_spec elapsed timeout) as [Hlt|Hge].
  - step. unfold digitalRead at 1 2. cbn [fst snd clock signal].
    destruct (Z.eqb_spec (sig (start + elapsed) pin) level) as [Hlevel|Hlevel].
    + step. do 2 eexists. split; [reflexivity|].
      intros k Hk Hat Hbefore. cbn [hw pins clock].
      assert (k = elapsed) as ->; [|now split].
      destruct (Z.lt_trichotomy k elapsed) as [Hless|[Heq|Hmore]]; [|exact Heq|].
      * exfalso. apply (Hnot k); [lia | exact Hat].
      * exfalso. apply (Hbefore elapsed); [lia | exact Hlevel].
    + step. unfold delay. cbn [fst snd clock signal].
      replace (start + elapsed + 1) with (start + (elapsed + 1)) by lia.
      apply IH; [lia | lia |].
      intros k Hk. destruct (Z.eq_dec k elapsed) as [->|Hne];
        [exact Hlevel | apply Hnot; lia].
  - step. do 2 eexists. split; [reflexivity|].
    intros k Hk Hat _. exfalso. apply (Hnot k); [lia | exact Hat].
Qed.

Lemma esperarEstadoPin_timing (pin level timeout_ms : Z)
      (s : S) (start : Z) (sig : Z -> Z -> Z) (log : list xbee_call) :
  exists b w',
    XBeeRadio._esperarEstadoPin pin level timeout_ms
      (World (XBeeHw s (Board start sig)) log)
    = Done (b, w')
    /\ waited start sig (uint8 pin) (uint8 level) (uint16 timeout_ms)
              (World (XBeeHw s (Board start sig)) log) b w'
    /\ forall k,
        0 <= k < uint16 timeout_ms ->
        sig (start + k) (uint8 pin) = uint8 level ->
        (forall j, 0 <= j < k -> sig (start + j) (uint8 pin) <> uint8 level) ->
        b = true /\ clock (pins (hw w')) = start + k.
Proof.
  destruct (esperarEstadoPin_spec pin level timeout_ms s start sig log)
    as (b & w' & Hrun & Hwaited).
  exists b, w'. split; [exact Hrun|]. split; [exact Hwaited|].
  assert (Hrange : 0 <= uint16 timeout_ms < 2 ^ 16) by (apply wrap_range; lia).
  assert (Htimeout : 0 <= uint16 timeout_ms < 2 ^ 32) by lia.
  destruct (esperar_loop_first (uint8 pin) (uint8 level) (uint16 timeout_ms)
              start sig Htimeout
              (Datatypes.S (Z.to_nat (uint16 timeout_ms))) 0 s
              (log ++ [XMillis (uint32 start)]))
    as (b1 & w1 & Hrun1 & Hfirst); [lia | lia | intros k Hk; lia |].
  rewrite Z.add_0_r in Hrun1.
  assert (Hsame : Done (b1, w1) = Done (b, w'))
    by (etransitivity; [symmetry; exact Hrun1 | exact Hrun]).
  injection Hsame as <- <-. exact Hfirst.
Qed.

End HandshakeTiming.

Ltac request_effects_cases self w :=
  destruct w as [[s [start sig]] log];
  destruct self as [baud rq on];
  cbn [XBeeRadio._pinSleepRq XBeeRadio._pinOnSleep hw calls serial pins
       clock signal];
  destruct (Z.ltb_spec rq 0) as [Hrq|Hrq];
    [ do 2 eexists; split; [reflexivity|];
      cbn [hw calls serial pins clock signal];
      rewrite app_nil_r; repeat split; lia
    | step; unfold digitalWrite; cbn [fst snd];
      destruct (Z.ltb_spec on 0) as [Hon|Hon];
      [ step; do 2 eexists; split; [reflexivity|];
        cbn [hw calls serial pins clock signal];
        rewrite pin_writes_app; repeat split; lia
      | ] ].

Section RequestEffects.
Context {S : Type} `{Stream S}.
Variables (self : XBeeRadio.t) (w : world (xbee_hw S) xbee_call).

Lemma xbee_dormir_effects :
  request_effects (XBeeRadio.dormir self)
                  (XBeeRadio._pinSleepRq self) (XBeeRadio._pinOnSleep self) LOW w.
Proof.
  unfold request_effects, first_confirmation, confirmed, XBeeRadio.dormir.
  request_effects_cases self w.
  destruct (esperarEstadoPin_timing on LOW 200 s start sig
              (log ++ [XDigitalWrite (uint8 rq) LOW]))
    as (b & w' & Hrun & [Hs Hsig Hwr Hv Ht Hi] & Hfirst).
  change (uint16 200) with 200 in *. change (uint8 LOW) with LOW in *.
  cbn [hw calls serial pins clock signal] in *.
  exists b, w'. split; [exact Hrun|]. split; [exact Hs|]. split; [exact Hsig|].
  split; [rewrite Hwr; apply pin_writes_app|].
  split; [destruct b; [specialize (Hi eq_refl) | specialize (Ht eq_refl)]; lia|].
  split; [lia|]. intros _ _. split; [exact Hv|].
  split; [rewrite <- Hv; destruct b; split; congruence|].
  split; [exact Ht|].
  intros k (Hk & Hat & Hbefore). now apply Hfirst.
Qed.

Lemma xbee_despertar_effects :
  request_effects (XBeeRadio.despertar self)
                  (XBeeRadio._pinSleepRq self) (XBeeRadio._pinOnSleep self) HIGH w.
Proof.
  unfold request_effects, first_confirmation, confirmed, XBeeRadio.despertar.
  request_effects_cases self w.
  destruct (esperarEstadoPin_timing on HIGH 200 s start sig
              (log ++ [XDigitalWrite (uint8 rq) HIGH]))
    as (b & w' & Hrun & [Hs Hsig Hwr Hv Ht Hi] & Hfirst).
  change (uint16 200) with 200 in *. change (uint8 HIGH) with HIGH in *.
  cbn [hw calls serial pins clock signal] in *.
  exists b, w'. split; [exact Hrun|]. split; [exact Hs|]. split; [exact Hsig|].
  split; [rewrite Hwr; apply pin_writes_app|].
  split; [destruct b; [specialize (Hi eq_refl) | specialize (Ht eq_refl)]; lia|].
  split; [lia|]. intros _ _. split; [exact Hv|].
  split; [rewrite <- Hv; destruct b; split; congruence|].
  split; [exact Ht|].
  intros k (Hk & Hat & Hbefore). now apply Hfirst.
Qed.

End RequestEffects.

(** [dormir] and [despertar] never touch the stream and write no pin but
    the request pin.  Without a request pin or without a confirmation pin
    they return [true] and take no time.  With both they return [true]
    exactly when the confirmation pin reads the requested level at one of
    the 200 polling instants, and [false] exactly when it reads it at none;
    a [true] comes at the first such instant, a [false] exactly 200 ms
    after the start.  This holds from every clock value, so also across the
    rollover of the 32-bit [millis] counter. *)
Theorem xbee_power_request_timing
        {S} `{Stream S} (self : XBeeRadio.t) (w : world (xbee_hw S) xbee_call) :
  request_effects (XBeeRadio.dormir self)
                  (XBeeRadio._pinSleepRq self) (XBeeRadio._pinOnSleep self) LOW w
  /\ request_effects (XBeeRadio.despertar self)
                     (XBeeRadio._pinSleepRq self) (XBeeRadio._pinOnSleep self)
                     HIGH w.
Proof. split; [apply xbee_dormir_effects | apply xbee_despertar_effects]. Qed.

Lemma follows_first_confirmation (pin start lag level : Z) :
  0 <= lag < 200 ->
  first_confirmation (Board start (Sim.follows pin start lag level)) pin level lag.
Proof.
  intros Hlag. unfold first_confirmation, Sim.follows. cbn [clock signal].
  rewrite Z.eqb_refl. split; [exact Hlag|]. split.
  - destruct (Z.leb_spec (start + lag) (start + lag)); [reflexivity | lia].
  - intros j Hj. destruct (Z.leb_spec (start + lag) (start + j)); lia.
Qed.

(** A wait that starts 100 ms before the rollover of [millis] and is
    confirmed after 150 ms ends 50 ms after the rollover; a wait on a
    confirmation pin stuck at [HIGH] fails 200 ms after it started. *)
Lemma xbee_power_request_timing_witness :
  (exists w',
      XBeeRadio.dormir xbee_both_pins
        (xbee_world_near_rollover (Sim.follows 5 (2 ^ 32 - 100) 150 LOW))
      = Done (true, w')
      /\ clock (pins (hw w')) = 2 ^ 32 + 50)
  /\ (exists w',
         XBeeRadio.dormir xbee_both_pins (xbee_world (Sim.stuck HIGH))
         = Done (false, w')
         /\ clock (pins (hw w')) = 1200).
Proof.
  split.
  - destruct (xbee_power_request_timing xbee_both_pins
                (xbee_world_near_rollover (Sim.follows 5 (2 ^ 32 - 100) 150 LOW)))
      as [(b & w' & Hrun & _ & _ & _ & _ & _ & Hboth) _].
    destruct Hboth as (_ & _ & _ & Hfirst); [cbn; lia | cbn; lia |].
    destruct (Hfirst 150) as [-> Hclock].
    + apply (follows_first_confirmation 5 (2 ^ 32 - 100) 150 LOW). lia.
    + exists w'. split; [exact Hrun|]. rewrite Hclock. reflexivity.
  - destruct (xbee_power_request_timing xbee_both_pins
                (xbee_world (Sim.stuck HIGH)))
      as [(b & w' & Hrun & _ & _ & _ & _ & _ & Hboth) _].
    destruct Hboth as (_ & Hfalse & Hlate & _); [cbn; lia | cbn; lia |].
    assert (b = false) as ->
      by (apply Hfalse, stuck_never_confirms; discriminate).
    exists w'. split; [exact Hrun|]. rewrite Hlate by reflexivity. reflexivity.
Defined.

(** ** XBee: bring-up *)

Lemma pin_writes_pin_modes (self : XBeeRadio.t) : pin_writes (pin_modes self) = [].
Proof.
  unfold pin_modes.
  destruct (XBeeRadio._pinSleepRq self >=? 0), (XBeeRadio._pinOnSleep self >=? 0);
    reflexivity.
Qed.

Lemma xbee_iniciar_runs_despertar
      {S} `{Stream S} (self : XBeeRadio.t) (w : world (xbee_hw S) xbee_call)
      (woke : bool) (w' : world (xbee_hw S) xbee_call) :
  XBeeRadio.despertar self (World (hw w) (calls w ++ pin_modes self))
  = Done (woke, w') ->
  XBeeRadio.iniciar self w = Done (true, w').
Proof.
  unfold XBeeRadio.iniciar, pin_modes.
  destruct w as [[s b] log]. cbn [hw calls].
  destruct (XBeeRadio._pinSleepRq self >=? 0),
           (XBeeRadio._pinOnSleep self >=? 0);
    intros Hwake; repeat step; unfold pinMode; cbn [fst snd app] in *;
    rewrite <- ?app_assoc, ?app_nil_r in *; cbn [app] in *;
    rewrite run_bind, Hwake; reflexivity.
Qed.

(** [iniciar] never touches the stream, and the only pin it writes is the
    request pin, driven [HIGH] once when it is configured and not at all
    otherwise.  It takes no time unless both pins are configured, and never
    more than 200 ms. *)
Theorem xbee_iniciar_requests_wake
        {S} `{Stream S} (self : XBeeRadio.t) (w : world (xbee_hw S) xbee_call) :
  exists w',
    XBeeRadio.iniciar self w = Done (true, w')
    /\ serial (hw w') = serial (hw w)
    /\ pin_writes (calls w')
       = pin_writes (calls w)
           ++ (if XBeeRadio._pinSleepRq self <? 0 then []
               else [(uint8 (XBeeRadio._pinSleepRq self), HIGH)])
    /\ clock (pins (hw w)) <= clock (pins (hw w')) <= clock (pins (hw w)) + 200
    /\ (XBeeRadio._pinSleepRq self < 0 \/ XBeeRadio._pinOnSleep self < 0 ->
        clock (pins (hw w')) = clock (pins (hw w))).
Proof.
  destruct (xbee_despertar_effects self (World (hw w) (calls w ++ pin_modes self)))
    as (woke & w' & Hwake & Hs & _ & Hwr & Hclock & Hnopoll & _).
  cbn [hw calls] in *.
  exists w'. split; [exact (xbee_iniciar_runs_despertar self w woke w' Hwake)|].
  split; [exact Hs|].
  split; [rewrite Hwr, pin_writes_app, pin_writes_pin_modes, app_nil_r; reflexivity|].
  split; [exact Hclock|]. intros Hunset. now apply Hnopoll.
Qed.

(** ** The decoding facade: what text comes back *)

Lemma leerComoString_text
      {Obj St} `{RadioInterface.t Obj St}
      (self : Obj) (junk : nat -> Z) (s s' : St)
      (longitud : Z) (buffer : list Z) :
  RadioInterface.leer self (map junk (seq 0 256)) 255 s
  = Done ((longitud, buffer), s') ->
  0 <= longitud <= 255 ->
  length buffer = 256%nat ->
  exists text,
    RadioInterface.leerComoString self junk s = Done (text, s')
    /\ c_str (take (Z.to_nat longitud) buffer ++ [0]) = Some text.
Proof.
  intros Hleer Hlen Hbuf.
  destruct (c_str_terminated (take (Z.to_nat longitud) buffer))
    as (text & Htext & _).
  exists text. split; [|exact Htext].
  unfold RadioInterface.leerComoString.
  rewrite run_bind, Hleer. cbn beta iota zeta.
  rewrite run_bind, run_store by lia.
  rewrite insert_take_drop by lia.
  rewrite c_str_stops_at_nul, Htext. reflexivity.
Qed.

Section FacadeText.
Context {Obj St : Type} `{RadioInterface.t Obj St}.
Variables (self : Obj) (junk : nat -> Z) (s s' : St).
Variables (longitud : Z) (buffer : list Z).
Hypothesis read_result :
  RadioInterface.leer self (map junk (seq 0 256)) 255 s
  = Done ((longitud, buffer), s').
Hypothesis read_bound : 0 <= longitud <= 255.
Hypothesis same_array : length buffer = 256%nat.

(** When the read returns 0, the text is empty, whatever the stack array
    held before. *)
Theorem leerComoString_empty_without_data :
  longitud = 0 ->
  RadioInterface.leerComoString self junk s = Done ([], s').
Proof.
  intros Hzero.
  destruct (leerComoString_text self junk s s' longitud buffer
              read_result read_bound same_array) as (text & Hrun & Htext).
  rewrite Hzero in Htext. cbn in Htext. injection Htext as <-. exact Hrun.
Qed.

(** When none of the bytes read is NUL, the text is exactly the bytes
    read. *)
Theorem leerComoString_returns_bytes_read :
  Forall (fun b => b <> 0) (take (Z.to_nat longitud) buffer) ->
  RadioInterface.leerComoString self junk s
  = Done (take (Z.to_nat longitud) buffer, s').
Proof.
  intros Hnul.
  destruct (leerComoString_text self junk s s' longitud buffer
              read_result read_bound same_array) as (text & Hrun & Htext).
  rewrite c_str_without_nul in Htext by exact Hnul.
  injection Htext as <-. exact Hrun.
Qed.

(** When a NUL byte is among the bytes read, the text ends before the
    first of them: the bytes after it are lost to the caller. *)
Theorem leerComoString_stops_at_first_nul (before after : list Z) :
  take (Z.to_nat longitud) buffer = before ++ 0 :: after ->
  Forall (fun b => b <> 0) before ->
  RadioInterface.leerComoString self junk s = Done (before, s').
Proof.
  intros Hsplit Hnul.
  destruct (leerComoString_text self junk s s' longitud buffer
              read_result read_bound same_array) as (text & Hrun & Htext).
  rewrite Hsplit, <- app_assoc in Htext. cbn [app] in Htext.
  rewrite c_str_stops_at_nul, c_str_without_nul in Htext by exact Hnul.
  injection Htext as <-. exact Hrun.
Qed.

End FacadeText.

(** No payload on the NRF radio: the text is empty. *)
Lemma leerComoString_empty_without_data_witness :
  RadioInterface.leerComoString
    (H := NrfRadio.radio (H := Sim.avr))
    {| NrfRadio._config := nrf_config_pa7 |} stack_junk (nrf_world [])
  = Done ([], World (Sim.RF24Sim true true []) [RGetDynamicPayloadSize 0]).
Proof.
  apply (leerComoString_empty_without_data
           (H := NrfRadio.radio (H := Sim.avr))
           {| NrfRadio._config := nrf_config_pa7 |} stack_junk (nrf_world [])
           (World (Sim.RF24Sim true true []) [RGetDynamicPayloadSize 0])
           0 (map stack_junk (seq 0 256))).
  - vm_compute. reflexivity.
  - lia.
  - vm_compute. reflexivity.
  - reflexivity.
Defined.

(** The LoRa packet "Hi!" comes back as the text "Hi!". *)
Lemma leerComoString_returns_bytes_read_witness :
  exists s',
    RadioInterface.leerComoString
      (H := LoraRadio.radio (H := Sim.avr)) lora_868 stack_junk
      (lora_world hi_bytes)
    = Done (hi_bytes, s').
Proof.
  eexists.
  apply (leerComoString_returns_bytes_read
           (H := LoraRadio.radio (H := Sim.avr)) lora_868 stack_junk
           (lora_world hi_bytes)
           (World (Sim.LoRaSim true false None [] (-40))
                  [LAvailable 3; LRead 72; LAvailable 2; LRead 105;
                   LAvailable 1; LRead 33; LAvailable 0])
           3 (hi_bytes ++ replicate 253 170)).
  - vm_compute. reflexivity.
  - lia.
  - vm_compute. reflexivity.
  - repeat constructor; discriminate.
Defined.

(** The stream bytes "Hi", NUL, "!" come back as the text "Hi". *)
Lemma leerComoString_stops_at_first_nul_witness :
  exists s',
    RadioInterface.leerComoString
      (H := XBeeRadio.radio (H := Sim.avr)) xbee_both_pins stack_junk
      (uart_world [72; 105; 0; 33])
    = Done ([72; 105], s').
Proof.
  eexists.
  apply (leerComoString_stops_at_first_nul
           (H := XBeeRadio.radio (H := Sim.avr)) xbee_both_pins stack_junk
           (uart_world [72; 105; 0; 33])
           (World (XBeeHw (Sim.Uart [] [] 64) (Board 0 (Sim.stuck LOW)))
                  [XAvailable 4; XReadBytes 4 [72; 105; 0; 33]])
           4 ([72; 105; 0; 33] ++ replicate 252 170))
    with (before := [72; 105]) (after := [33]).
  - vm_compute. reflexivity.
  - lia.
  - vm_compute. reflexivity.
  - reflexivity.
  - repeat constructor; discriminate.
Defined.

(** ** The text overload of [enviar] *)

